(** * ForML: flow graph views, ANSI SQL parser, generation assets and runner

    A shallow embedding of the parts of ForML that its specification makes
    statements about, and of the code around them:

    - [forml/runtime/asset/directory/generation.py]: [Tag] with its mode
      proxies ([replace], [trigger]), [Tag.replace], [dumps] and [loads],
      [NOTAG], [Level.Key], [Level.tag], [Level.get];
    - [forml/runtime/__init__.py]: [Runner.train], [Runner.apply];
    - [forml/io/dsl/parser/sql.py]: [Parser.Expression] with the pattern
      [ASSOCIATIVE], [KIND], [EXPRESSION], [generate_literal],
      [generate_expression], [generate_query], [generate_alias],
      [generate_ordering];
    - [forml/io/dsl/schema/series.py]: columns, the operators that build
      expressions, [accept];
    - [forml/flow/graph/view.py]: [Path.tail], [Path.__new__],
      [Closure.extend], [Channel.extend] without a right path,
      [Closure.Publishable.republish], [PreOrder.visit_path].

    Python exceptions are values of [exn]; a computation that may raise
    returns a [result]. Python integers are [Z], strings are [string]. *)

From Stdlib Require Import ZArith String Ascii List Lia Bool Arith.
From Stdlib Require Import DecimalString DecimalZ.
From stdpp Require Import base option list gmap.

Set Warnings "-register-all".
Local Open Scope string_scope.

(** ** Exceptions and results *)

Inductive exn : Type :=
| AssertionError (msg : string)
| AttributeError (msg : string)
| ValueError (msg : string)
| TypeError (msg : string)
| KeyError (msg : string)
| IndexError (msg : string)
| LevelInvalid (msg : string)       (* directory.Level.Invalid *)
| ListingEmpty (msg : string)       (* directory.Level.Listing.Empty *)
| Unsupported (msg : string)        (* forml.io.dsl.error.Unsupported *)
| RecursionError.

Inductive result (A : Type) : Type :=
| Ok (a : A)
| Raise (e : exn).
Arguments Ok {A} a.
Arguments Raise {A} e.

Definition bind {A B : Type} (r : result A) (k : A -> result B) : result B :=
  match r with
  | Ok a => k a
  | Raise e => Raise e
  end.

Notation "'let*' x ':=' r 'in' k" := (bind r (fun x => k))
  (at level 10, x name, r at level 100, k at level 200).
Notation "'let*' ' p ':=' r 'in' k" := (bind r (fun x => let 'p := x in k))
  (at level 10, p pattern, r at level 100, k at level 200).

(** [assert cond, msg] *)
Definition assert (cond : bool) (msg : string) : result unit :=
  if cond then Ok tt else Raise (AssertionError msg).

Definition is_ok {A : Type} (r : result A) : bool :=
  match r with Ok _ => true | Raise _ => false end.

(** ** Python [str] and [int] on integers *)

(** [str(n)] for an [int]: decimal digits, a leading minus sign when
    negative. *)
Definition py_str (n : Z) : string := NilZero.string_of_int (Z.to_int n).

(** [int(s)] on the decimal strings [str] produces (digits with an optional
    leading minus sign); any other string is a [ValueError]. *)
Definition py_int (s : string) : result Z :=
  match NilZero.int_of_string s with
  | Some d => Ok (Z.of_int d)
  | None => Raise (ValueError ("invalid literal for int() with base 10: " ++ s))
  end.

(** ** Python values *)

(** A double other than NaN, kept symbolic (sign, exponent, mantissa): the
    code only stores and compares it. *)
Inductive pyfloat : Type := Float64 (negative : bool) (exponent mantissa : Z).

Record datetime : Type := Datetime {
  year : Z; month : Z; day : Z;
  hour : Z; minute : Z; second : Z; microsecond : Z
}.

(** The values of this model. Those from [PyNone] to [PyDict] are the ones
    [json.dumps] accepts and [json.loads] yields: [json.dumps] followed by
    [json.loads] (through [encode]/[decode] of UTF-8) is the identity on
    them, so a serialized document is modelled by the value it denotes.
    The last three are native values of the DSL that JSON does not carry:
    a [datetime.date], a [datetime.datetime] and a finite
    [decimal.Decimal] (sign, coefficient, exponent). *)
Inductive pyval : Type :=
| PyNone
| PyBool (b : bool)
| PyInt (n : Z)
| PyFloat (f : pyfloat)
| PyStr (s : string)
| PyList (l : list pyval)
| PyDict (d : list (string * pyval))
| PyDate (y m d : Z)
| PyDatetime (t : datetime)
| PyDecimal (negative : bool) (coefficient exponent : Z).

(** [bool(v)] *)
Definition truthy (v : pyval) : bool :=
  match v with
  | PyNone => false
  | PyBool b => b
  | PyInt n => negb (n =? 0)%Z
  | PyFloat (Float64 _ _ m) => negb (m =? 0)%Z
  | PyStr s => negb (String.eqb s "")
  | PyList l => match l with [] => false | _ => true end
  | PyDict d => match d with [] => false | _ => true end
  | PyDate _ _ _ => true
  | PyDatetime _ => true
  | PyDecimal _ coefficient _ => negb (coefficient =? 0)%Z
  end.

(** [a or b] on values, with [b] evaluated only when [a] is falsy. *)
Definition py_or (a : pyval) (b : result pyval) : result pyval :=
  if truthy a then Ok a else b.





(** ** Fixed-width numerals *)

Definition digit_char (d : Z) : ascii :=
  nth (Z.to_nat d)
      ["0"; "1"; "2"; "3"; "4"; "5"; "6"; "7"; "8"; "9";
       "a"; "b"; "c"; "d"; "e"; "f"]%char "0"%char.


(** The [w] low digits of [n] in base [b], most significant first, in front
    of [rest]: ['%0wd'] and ['%0wx'] for a number that fits. *)
Fixpoint numeral (b : Z) (w : nat) (n : Z) (rest : string) : string :=
  match w with
  | O => rest
  | S w' => numeral b w' (n / b)%Z (String (digit_char (n mod b)%Z) rest)
  end.



(** ** [datetime.datetime] (naive) and [uuid.UUID] *)

Definition is_leap (y : Z) : bool :=
  ((y mod 4 =? 0) && (negb (y mod 100 =? 0) || (y mod 400 =? 0)))%Z.

Definition days_in_month (y m : Z) : Z :=
  if (m =? 2)%Z then (if is_leap y then 29 else 28)%Z
  else if ((m =? 4) || (m =? 6) || (m =? 9) || (m =? 11))%Z then 30%Z
  else 31%Z.

(** The range checks of the [datetime] constructor. *)
Definition valid_datetime (t : datetime) : bool :=
  ((1 <=? year t) && (year t <=? 9999) &&
   (1 <=? month t) && (month t <=? 12) &&
   (1 <=? day t) && (day t <=? days_in_month (year t) (month t)) &&
   (0 <=? hour t) && (hour t <? 24) &&
   (0 <=? minute t) && (minute t <? 60) &&
   (0 <=? second t) && (second t <? 60) &&
   (0 <=? microsecond t) && (microsecond t <? 1000000))%Z.

(** The number of decimal digits of a year of the range 1 to 9999. *)
Definition year_width (y : Z) : nat :=
  if (y <? 10)%Z then 1 else if (y <? 100)%Z then 2 else if (y <? 1000)%Z then 3 else 4.

(** One directive of a format, its field printed in front of [rest]:
    [%m %d %H %M %S] with 2 digits and [%f] with 6, zero padded; [%Y] as
    the decimal number of the year without padding, which is what the
    [strftime] of the C library that [datetime.strftime] calls prints on
    Linux, so a year below 1000 takes fewer than four digits. A character
    that is no directive of this model is kept as written. *)
Definition strftime_directive (d : ascii) (t : datetime) (rest : string) : string :=
  if Ascii.eqb d "Y" then numeral 10 (year_width (year t)) (year t) rest
  else if Ascii.eqb d "m" then numeral 10 2 (month t) rest
  else if Ascii.eqb d "d" then numeral 10 2 (day t) rest
  else if Ascii.eqb d "H" then numeral 10 2 (hour t) rest
  else if Ascii.eqb d "M" then numeral 10 2 (minute t) rest
  else if Ascii.eqb d "S" then numeral 10 2 (second t) rest
  else if Ascii.eqb d "f" then numeral 10 6 (microsecond t) rest
  else String "%" (String d rest).

(** [timestamp.strftime(fmt)] *)
Fixpoint strftime (fmt : string) (t : datetime) : string :=
  match fmt with
  | EmptyString => EmptyString
  | String c fmt' =>
      if Ascii.eqb c "%" then
        match fmt' with
        | String d fmt'' => strftime_directive d t (strftime fmt'' t)
        | EmptyString => String c EmptyString
        end
      else String c (strftime fmt' t)
  end.




(** A UUID is its 128-bit integer. *)
Definition UUID : Type := Z.


(** [str(uuid)]: ['%032x' % int] cut as 8-4-4-4-12. *)
Definition uuid_str (u : UUID) : string :=
  numeral 16 8 (u / 2 ^ 96) (String "-"
  (numeral 16 4 (u / 2 ^ 80) (String "-"
  (numeral 16 4 (u / 2 ^ 64) (String "-"
  (numeral 16 4 (u / 2 ^ 48) (String "-"
  (numeral 16 12 u ""))))))))%char%Z.



(** ** Generation metadata: [generation.Tag] *)

Module Tag.

(** [Tag.Training]: a [Mode] with attributes [timestamp] and [ordinal]. *)
Record Training : Type := mkTraining {
  training_timestamp : option datetime;
  ordinal : pyval
}.

(** [Tag.Tuning]: a [Mode] with attributes [timestamp] and [score]. *)
Record Tuning : Type := mkTuning {
  tuning_timestamp : option datetime;
  score : pyval
}.

(** The named tuple [(training, tuning, states)]. *)
Record t : Type := mk {
  training : Training;
  tuning : Tuning;
  states : list UUID
}.

(** [Mode.__bool__]: [bool(self.timestamp)]; a [datetime] is truthy. *)
Definition Training_bool (m : Training) : bool :=
  match training_timestamp m with Some _ => true | None => false end.
Definition Tuning_bool (m : Tuning) : bool :=
  match tuning_timestamp m with Some _ => true | None => false end.

(** [Training()] and [Tuning()] *)
Definition Training_default : Training := mkTraining None PyNone.
Definition Tuning_default : Tuning := mkTuning None PyNone.

(** [Tag.__new__(cls, training=None, tuning=None, states=None)]:
    [training or cls.Training()], [tuning or cls.Tuning()],
    [tuple(states or [])]. *)
Definition new (training : option Training) (tuning : option Tuning)
           (states : option (list UUID)) : t :=
  mk (match training with
      | Some m => if Training_bool m then m else Training_default
      | None => Training_default
      end)
     (match tuning with
      | Some m => if Tuning_bool m then m else Tuning_default
      | None => Tuning_default
      end)
     (match states with Some l => l | None => [] end).

(** [Tag.__bool__]: [bool(self.training or self.tuning)] *)
Definition to_bool (tag : t) : bool :=
  Training_bool (training tag) || Tuning_bool (tuning tag).








End Tag.

(** [NOTAG = Tag()] *)
Definition NOTAG : Tag.t := Tag.new None None None.

(** ** Generations: [generation.Level] *)

Module Level.

Module Key.

Definition MIN : Z := 1.

(** [Level.Key.__new__(cls, key=MIN)] for an [int] key: the instance is
    the integer read back from [str(key)]. *)
Definition new (key : Z) : result Z :=
  match py_int (py_str key) with
  | Raise _ =>
      Raise (LevelInvalid ("Invalid key " ++ py_str key ++ " (not an integer)"))
  | Ok instance =>
      if (instance <? MIN)%Z
      then Raise (LevelInvalid ("Invalid key " ++ py_str key ++ " (not natural)"))
      else Ok instance
  end.

(** [Level.Key.next]: [self.__class__(self + 1)] *)
Definition next (self : Z) : result Z := new (self + 1)%Z.

End Key.

Section Tag.
(** The keys of the project, of the lineage and of this generation as
    the properties [self.project.key], [self.lineage.key] and
    [self.key] of [directory.Level] deliver them (a key, or an
    exception such as [Listing.Empty] on an empty level), and the cached
    registry read [TAGS(self.registry, ...)]. *)
Context {ProjectKey LineageKey : Type}.
Variable project_key : result ProjectKey.
Variable lineage_key : result LineageKey.
Variable self_key : result Z.
Variable TAGS : ProjectKey -> LineageKey -> Z -> result Tag.t.

(** [Level.tag] *)
Definition tag : result Tag.t :=
  let* project := project_key in
  let* lineage := lineage_key in
  match self_key with
  | Raise (ListingEmpty _) => Ok NOTAG
  | Raise e => Raise e
  | Ok generation => TAGS project lineage generation
  end.
End Tag.

End Level.

(** ** [runtime.Runner] *)

Module Runner.

Section Train.
(** [self._assets.tag] and [self._build] specialised to the project's
    pipeline. *)
Context {Composition : Type}.
Variable assets_tag : result Tag.t.
Variable _build : pyval -> pyval -> result Composition.

(** The composition [Runner.train] builds:
    [self._build(lower or self._assets.tag.training.ordinal, upper, ...)]. *)
Definition train_composition (lower upper : pyval) : result Composition :=
  let* lower' :=
    py_or lower (let* tag := assets_tag in Ok (Tag.ordinal (Tag.training tag))) in
  _build lower' upper.

(** [Runner.apply] builds with both bounds as given. *)
Definition apply_composition (lower upper : pyval) : result Composition :=
  _build lower upper.
End Train.

End Runner.

(** ** Scenario values *)

(** A generation trained at 2023-01-02 03:04:05.000006 up to ordinal 42. *)
Definition tag42 : Tag.t :=
  Tag.new (Some (Tag.mkTraining (Some (Datetime 2023 1 2 3 4 5 6)) (PyInt 42)))
          (Some Tag.Tuning_default)
          (Some [1%Z]).





(** ** Regular expressions: the part of [re] the SQL parser uses *)

Module re.

(** A pattern. [Group n r] is the capturing group number [n];
    [IfGroup n yes no] is the conditional [(?(n)yes|no)]. *)
Inductive pattern : Type :=
| Eps
| Class (member : ascii -> bool)
| Seq (r1 r2 : pattern)
| Alt (r1 r2 : pattern)
| Star (r : pattern)
| Plus (r : pattern)
| Opt (r : pattern)
| Group (n : nat) (r : pattern)
| IfGroup (n : nat) (yes no : pattern).

(** [\s] on the code points below 256: what [str.isspace] accepts. *)
Definition space (c : ascii) : bool :=
  let n := nat_of_ascii c in
  ((9 <=? n) && (n <=? 13) || (28 <=? n) && (n <=? 32) || (n =? 133) || (n =? 160))%nat.

(** [\S] *)
Definition nonspace (c : ascii) : bool := negb (space c).

(** [.] without DOTALL *)
Definition dot (c : ascii) : bool := negb (Ascii.eqb c "010").

Definition chr (c : ascii) : pattern := Class (Ascii.eqb c).

(** A literal string. *)
Fixpoint lit (s : string) : pattern :=
  match s with
  | EmptyString => Eps
  | String c s' => Seq (chr c) (lit s')
  end.

(** A matcher state: the input still to read and the groups that took
    part in the match so far. *)
Definition state : Type := list ascii * list nat.

Definition shorter (st st' : state) : bool :=
  (length (fst st') <? length (fst st))%nat.

(** Zero or more rounds of [step], longest first; a round that reads
    nothing ends the repetition. [fuel] bounds the number of rounds by the
    length of the input. *)
Fixpoint rounds (step : state -> list state) (fuel : nat) (st : state) : list state :=
  match fuel with
  | O => [st]
  | S fuel' =>
      flat_map (rounds step fuel') (filter (fun st' => shorter st st' = true) (step st))
      ++ [st]
  end.

(** All the states a backtracking matcher can reach after matching [r]
    from [st], in the order it tries them. *)
Fixpoint run (r : pattern) (st : state) : list state :=
  match r with
  | Eps => [st]
  | Class member =>
      match fst st with
      | c :: rest => if member c then [(rest, snd st)] else []
      | [] => []
      end
  | Seq r1 r2 => flat_map (run r2) (run r1 st)
  | Alt r1 r2 => run r1 st ++ run r2 st
  | Star r' => rounds (run r') (length (fst st)) st
  | Plus r' => flat_map (fun st' => rounds (run r') (length (fst st')) st') (run r' st)
  | Opt r' => run r' st ++ [st]
  | Group n r' => map (fun st' => (fst st', n :: snd st')) (run r' st)
  | IfGroup n yes no =>
      if existsb (Nat.eqb n) (snd st) then run yes st else run no st
  end.

(** [pattern.fullmatch(s)] as a truth value: some way of matching reads
    the whole string. *)
Definition fullmatch (r : pattern) (s : string) : bool :=
  existsb (fun st => match fst st with [] => true | _ => false end)
          (run r (list_ascii_of_string s, [])).

End re.

(** ** DSL kinds and columns *)

Module kindmod.

(** Modelled from the spec: the kinds of [forml.io.dsl.schema.kind], a
    module that is not among the sources:
    [Boolean | Integer | Float | Decimal | String | Date | Timestamp |
    Array<Kind>]. *)
Inductive Any : Type :=
| Boolean | Integer | Float | Decimal | String | Date | Timestamp
| Array (element : Any).

(** [isinstance(kind, kindmod.Numeric)] *)
Definition Numeric (kind : Any) : bool :=
  match kind with
  | Integer | Float | Decimal => true
  | _ => false
  end.

Definition name (kind : Any) : string :=
  match kind with
  | Boolean => "Boolean" | Integer => "Integer" | Float => "Float"
  | Decimal => "Decimal" | String => "String" | Date => "Date"
  | Timestamp => "Timestamp" | Array _ => "Array"
  end.

End kindmod.

(** The Python objects the parser meets: native values and [Literal]
    columns. A float and a decimal are known by the text Python formats
    them to. *)
Inductive object : Type :=
| VBool (b : bool)
| VInt (n : Z)
| VFloat (repr : string)
| VDecimal (str : string)
| VStr (s : string)
| VDate (y m d : Z)
| VDatetime (t : datetime)
| VList (l : list object)
| VLiteral (value : object) (kind : kindmod.Any).   (* series.Literal *)

(** [isinstance(kind, cls)] for a class of kinds given by its name. *)
Definition isinstance (kind : kindmod.Any) (cls : string) : bool :=
  String.eqb (kindmod.name kind) cls.

(** Modelled from the spec: [kindmod.reflect], of the same missing module:
    the kind of a native value; an array takes the kind of its first
    element, and an empty one, or an object that is no native value, has no
    kind. *)
Fixpoint reflect (value : object) : result kindmod.Any :=
  match value with
  | VBool _ => Ok kindmod.Boolean
  | VInt _ => Ok kindmod.Integer
  | VFloat _ => Ok kindmod.Float
  | VDecimal _ => Ok kindmod.Decimal
  | VStr _ => Ok kindmod.String
  | VDate _ _ _ => Ok kindmod.Date
  | VDatetime _ => Ok kindmod.Timestamp
  | VList (first :: _) => let* element := reflect first in Ok (kindmod.Array element)
  | VList [] => Raise (ValueError "Value is of unknown type")
  | VLiteral _ _ => Raise (ValueError "Value is of unknown type")
  end.

(** [series.Literal.__new__(cls, value)]: the pair
    [[value, kindmod.reflect(value)]]. *)
Definition Literal_new (value : object) : result object :=
  let* kind := reflect value in Ok (VLiteral value kind).

(** [literal.kind] and [literal.value] *)
Definition getattr_kind (o : object) : result kindmod.Any :=
  match o with
  | VLiteral _ kind => Ok kind
  | _ => Raise (AttributeError "object has no attribute 'kind'")
  end.

Definition getattr_value (o : object) : result object :=
  match o with
  | VLiteral value _ => Ok value
  | _ => Raise (AttributeError "object has no attribute 'value'")
  end.

(** [f'{value}'] for the values of the kinds it is applied to: strings and
    numbers (any other value is not formatted by the parser). *)
Definition format_value (value : object) : string :=
  match value with
  | VStr s => s
  | VInt n => py_str n
  | VFloat repr => repr
  | VDecimal str => str
  | VBool b => if b then "True" else "False"
  | _ => ""
  end.

(** [value.strftime(fmt)] of a [date] or a [datetime]. *)
Definition value_strftime (value : object) (fmt : string) : result string :=
  match value with
  | VDatetime t => Ok (strftime fmt t)
  | VDate y m d => Ok (strftime fmt (Datetime y m d 0 0 0 0))
  | _ => Raise (AttributeError "object has no attribute 'strftime'")
  end.

(** [sep.join(parts)] *)
Fixpoint join (sep : string) (parts : list string) : string :=
  match parts with
  | [] => ""
  | [part] => part
  | part :: rest => part ++ sep ++ join sep rest
  end.

(** [template.format] on the arguments, for a template whose only replacement fields
    are [{}]: each takes the next argument. *)
Fixpoint format (template : string) (args : list string) : result string :=
  match template with
  | EmptyString => Ok ""
  | String c template' =>
      match template' with
      | String c' template'' =>
          if Ascii.eqb c "{" && Ascii.eqb c' "}" then
            match args with
            | arg :: args' =>
                let* rest := format template'' args' in Ok (arg ++ rest)
            | [] => Raise (IndexError "Replacement index out of range")
            end
          else let* rest := format template' args in Ok (String c rest)
      | EmptyString => Ok (String c "")
      end
  end.

Definition newline : string := String "010" "".

(** ** The ANSI SQL parser: [forml.io.dsl.parser.sql.Parser] *)

Module Parser.

(** [Parser.Expression.ASSOCIATIVE]:
    [\s*(?:(\S*\()?\s*[^-+*/%\s]+\s*(?(1).*\))|TIMESTAMP *'.+'|DATE *'.+')\s*] *)
Definition operator_or_space (c : ascii) : bool :=
  Ascii.eqb c "-" || Ascii.eqb c "+" || Ascii.eqb c "*" || Ascii.eqb c "/"
  || Ascii.eqb c "%" || re.space c.

Definition ASSOCIATIVE : re.pattern :=
  re.Seq (re.Star (re.Class re.space))
 (re.Seq
   (re.Alt
      (re.Seq (re.Opt (re.Group 1 (re.Seq (re.Star (re.Class re.nonspace)) (re.chr "("))))
      (re.Seq (re.Star (re.Class re.space))
      (re.Seq (re.Plus (re.Class (fun c => negb (operator_or_space c))))
      (re.Seq (re.Star (re.Class re.space))
              (re.IfGroup 1 (re.Seq (re.Star (re.Class re.dot)) (re.chr ")")) re.Eps)))))
   (re.Alt
      (re.Seq (re.lit "TIMESTAMP")
      (re.Seq (re.Star (re.chr " "))
      (re.Seq (re.chr "'") (re.Seq (re.Plus (re.Class re.dot)) (re.chr "'")))))
      (re.Seq (re.lit "DATE")
      (re.Seq (re.Star (re.chr " "))
      (re.Seq (re.chr "'") (re.Seq (re.Plus (re.Class re.dot)) (re.chr "'")))))))
   (re.Star (re.Class re.space))).

(** [clean]: add parentheses if necessary. *)
Definition clean (arg : string) : string :=
  if negb (re.fullmatch ASSOCIATIVE arg) then "(" ++ arg ++ ")" else arg.

(** An argument of an expression: the fragment rendered for an element
    term, or a term that is no column (the kind of a cast). *)
Inductive argument : Type :=
| Fragment (s : string)
| KindArg (kind : kindmod.Any).

(** [Parser.KIND] *)
Definition KIND (kind : kindmod.Any) : result string :=
  match kind with
  | kindmod.Boolean => Ok "BOOLEAN"
  | kindmod.Integer => Ok "BIGINT"
  | kindmod.Float => Ok "DOUBLE"
  | kindmod.Decimal => Ok "DECIMAL"
  | kindmod.String => Ok "VARCHAR"
  | kindmod.Date => Ok "DATE"
  | kindmod.Timestamp => Ok "TIMESTAMP"
  | kindmod.Array _ => Raise (KeyError "Array")
  end.

(** An argument used as a string. *)
Definition fragment (a : argument) : result string :=
  match a with
  | Fragment s => Ok s
  | KindArg _ => Raise (TypeError "expected string or bytes-like object")
  end.

Fixpoint fragments (args : list argument) : result (list string) :=
  match args with
  | [] => Ok []
  | a :: args' =>
      let* s := fragment a in
      let* ss := fragments args' in
      Ok (s :: ss)
  end.

(** [Parser.Expression]: a template and an optional mapper. *)
Record Expression : Type := mkExpression {
  _template : string;
  _mapper : option (list argument -> result (list string))
}.

(** [Expression.__call__] *)
Definition call (self : Expression) (args : list argument) : result string :=
  let* args :=
    match _mapper self with
    | Some mapper => mapper args
    | None => fragments args
    end in
  let args := map clean args in
  format (_template self) args.

(** The expression classes of [forml.io.dsl.function]. *)
Inductive function : Type :=
| Addition | Subtraction | Multiplication | Division | Modulus
| LessThan | LessEqual | GreaterThan | GreaterEqual | Equal | NotEqual
| IsNull | NotNull | And | Or | Not | Cast | Count
| Other (name : string).

(** [lambda _, k: [_, Parser.KIND[k]]]: the table is read first, and a
    string is no key of it; the first argument is used as a string when it
    is cleaned. *)
Definition cast_mapper (args : list argument) : result (list string) :=
  match args with
  | [a; k] =>
      let* kind :=
        match k with
        | KindArg k => KIND k
        | Fragment s => Raise (KeyError s)
        end in
      let* s := fragment a in
      Ok [s; kind]
  | _ => Raise (TypeError "<lambda>() takes 2 positional arguments")
  end.

(** [lambda c=None: [c if c is not None else '*']] *)
Definition count_mapper (args : list argument) : result (list string) :=
  match args with
  | [] => Ok ["*"]
  | [a] => let* s := fragment a in Ok [s]
  | _ => Raise (TypeError "<lambda>() takes from 0 to 1 positional arguments")
  end.

(** [Parser.EXPRESSION] *)
Definition EXPRESSION (expression : function) : option Expression :=
  match expression with
  | Addition => Some (mkExpression "{} + {}" None)
  | Subtraction => Some (mkExpression "{} - {}" None)
  | Multiplication => Some (mkExpression "{} * {}" None)
  | Division => Some (mkExpression "{} / {}" None)
  | Modulus => Some (mkExpression "{} % {}" None)
  | LessThan => Some (mkExpression "{} < {}" None)
  | LessEqual => Some (mkExpression "{} <= {}" None)
  | GreaterThan => Some (mkExpression "{} > {}" None)
  | GreaterEqual => Some (mkExpression "{} >= {}" None)
  | Equal => Some (mkExpression "{} = {}" None)
  | NotEqual => Some (mkExpression "{} != {}" None)
  | IsNull => Some (mkExpression "{} IS NULL" None)
  | NotNull => Some (mkExpression "{} IS NOT NULL" None)
  | And => Some (mkExpression "{} AND {}" None)
  | Or => Some (mkExpression "{} OR {}" None)
  | Not => Some (mkExpression "NOT {}" None)
  | Cast => Some (mkExpression "cast({} AS {})" (Some cast_mapper))
  | Count => Some (mkExpression "count({})" (Some count_mapper))
  | Other _ => None
  end.

Definition DATE : string := "%Y-%m-%d".
Definition TIMESTAMP : string := "%Y-%m-%d %H:%M:%S.%f".

(** [Parser.generate_alias] *)
Definition generate_alias (column alias : string) : string :=
  column ++ " AS " ++ alias.

(** [Parser.generate_literal] *)
Fixpoint generate_literal (literal : object) : result string :=
  let* kind := getattr_kind literal in
  match literal with
  | VLiteral value _ =>
      if isinstance kind "String" then
        Ok ("'" ++ format_value value ++ "'")
      else if kindmod.Numeric kind then
        Ok (format_value value)
      else if isinstance kind "Timestamp" then
        let* text := value_strftime value TIMESTAMP in
        Ok ("TIMESTAMP '" ++ text ++ "'")
      else if isinstance kind "Date" then
        let* text := value_strftime value DATE in
        Ok ("DATE '" ++ text ++ "'")
      else if isinstance kind "Array" then
        match value with
        | VList l =>
            let* parts :=
              (fix each (l : list object) : result (list string) :=
                 match l with
                 | [] => Ok []
                 | v :: l' =>
                     let* part := generate_literal v in
                     let* parts := each l' in
                     Ok (part :: parts)
                 end) l in
            Ok ("ARRAY[" ++ join ", " parts ++ "]")
        | _ => Raise (TypeError "object is not iterable")
        end
      else Raise (Unsupported ("Unsupported literal kind: " ++ kindmod.name kind))
  | _ => Raise (AttributeError "object has no attribute 'value'")
  end.

(** [Parser.generate_expression]: a [KeyError] of the table lookup, or one
    raised while the generator runs, becomes [Unsupported]. *)
Definition generate_expression (expression : function) (arguments : list argument)
  : result string :=
  match EXPRESSION expression with
  | Some generator =>
      match call generator arguments with
      | Raise (KeyError _) => Raise (Unsupported "Unsupported expression")
      | r => r
      end
  | None => Raise (Unsupported "Unsupported expression")
  end.

(** [frame.Rows]: [count] and an optional [offset]. *)
Record Rows : Type := mkRows { count : Z; offset : option Z }.

(** [Parser.generate_query] *)
Definition generate_query (source : string) (columns : list string)
           (where_ : option string) (groupby : list string)
           (having : option string) (orderby : list string)
           (rows : option Rows) : result string :=
  let* _ := assert (match columns with [] => false | _ => true end)
                   "Expecting columns" in
  let query := "SELECT " ++ join ", " columns ++ newline ++ "FROM " ++ source in
  let query :=
    match where_ with
    | Some w => if String.eqb w "" then query else query ++ newline ++ "WHERE " ++ w
    | None => query
    end in
  let query :=
    match groupby with
    | [] => query
    | _ => query ++ newline ++ "GROUP BY " ++ join ", " groupby
    end in
  let query :=
    match having with
    | Some h => if String.eqb h "" then query else query ++ newline ++ "HAVING " ++ h
    | None => query
    end in
  let query :=
    match orderby with
    | [] => query
    | _ => query ++ newline ++ "ORDER BY " ++ join ", " orderby
    end in
  let query :=
    match rows with
    | Some r =>
        let query := query ++ newline ++ "LIMIT" in
        let query :=
          match offset r with
          | Some o => if (o =? 0)%Z then query else query ++ " " ++ py_str o ++ ","
          | None => query
          end in
        query ++ " " ++ py_str (count r)
    | None => query
    end in
  Ok query.

End Parser.

(** ** Columns: [forml.io.dsl.schema.series] *)

Module series.

(** A column. The terms of an expression are elements, or objects that are
    no columns (the kind given to a cast). *)
Inductive Column : Type :=
| Aliased (element : Column) (name : string)
| Literal (literal : object)
| Field (table : string) (name : string) (kind : kindmod.Any)
| Expression (cls : Parser.function) (terms : list (Column + kindmod.Any)).

(** [column.element]: the column itself, apart from [Aliased]. *)
Definition element (column : Column) : Column :=
  match column with
  | Aliased e _ => e
  | _ => column
  end.

(** [Aliased.__new__(cls, column, alias)] *)
Definition alias (column : Column) (alias : string) : Column :=
  Aliased (element column) alias.

(** An operand of an overloaded operator: a column, or a native value. *)
Inductive operand : Type :=
| Col (column : Column)
| Val (value : object).

(** [cast]: a literal of the value unless it is a column already. *)
Definition cast (value : operand) : result Column :=
  match value with
  | Col column => Ok column
  | Val v => let* literal := Literal_new v in Ok (Literal literal)
  end.

(** A bivariate operator under [columnize]:
    [cls(cast(self).element, cast(other).element)]. *)
Definition bivariate (cls : Parser.function) (self other : operand) : result Column :=
  let* a := cast self in
  let* b := cast other in
  Ok (Expression cls [inl (element a); inl (element b)]).

Definition __add__ := bivariate Parser.Addition.
Definition __sub__ := bivariate Parser.Subtraction.
Definition __mul__ := bivariate Parser.Multiplication.
Definition __truediv__ := bivariate Parser.Division.
Definition __mod__ := bivariate Parser.Modulus.
Definition __lt__ := bivariate Parser.LessThan.
Definition __le__ := bivariate Parser.LessEqual.
Definition __gt__ := bivariate Parser.GreaterThan.
Definition __ge__ := bivariate Parser.GreaterEqual.
Definition __eq__ := bivariate Parser.Equal.
Definition __ne__ := bivariate Parser.NotEqual.
Definition __and__ := bivariate Parser.And.
Definition __or__ := bivariate Parser.Or.

(** [series.Visitor], with the state its hooks work on. *)
Record Visitor (State : Type) : Type := mkVisitor {
  visit_aliased : Column -> State -> result State;
  visit_field : Column -> State -> result State;
  visit_literal : Column -> State -> result State;
  visit_expression : Column -> State -> result State
}.
Arguments visit_aliased {State}.
Arguments visit_field {State}.
Arguments visit_literal {State}.
Arguments visit_expression {State}.

(** [column.accept(visitor)]: the terms first, then the column. An
    expression passes its terms on when they are instances of [Element],
    which an aliased column and the kind of a cast are not. *)
Fixpoint accept {State : Type} (visitor : Visitor State) (column : Column)
         (st : State) : result State :=
  match column with
  | Aliased e _ =>
      let* st := accept visitor e st in
      visit_aliased visitor column st
  | Literal _ => visit_literal visitor column st
  | Field _ _ _ => visit_field visitor column st
  | Expression _ terms =>
      let* st :=
        (fix each (terms : list (Column + kindmod.Any)) (st : State) : result State :=
           match terms with
           | [] => Ok st
           | inl (Aliased _ _) :: terms' => each terms' st
           | inl term :: terms' =>
               let* st := accept visitor term st in each terms' st
           | inr _ :: terms' => each terms' st
           end) terms st in
      visit_expression visitor column st
  end.

End series.

(** ** The parser bundle and queries *)

Module Bundle.

(** [frame.Ordering.Direction] *)
Inductive Direction : Type := ASCENDING | DESCENDING.

(** [Parser.ORDER] and [Parser.generate_ordering] *)
Definition ORDER (direction : Direction) : string :=
match direction with ASCENDING => "ASC" | DESCENDING => "DESC" end.

Definition generate_ordering (column : string) (direction : Direction) : string :=
column ++ " " ++ ORDER direction.

(** Modelled from the spec: [frame.Query] over a table, of
  [forml.io.dsl.schema.frame], a module that is not among the sources:
  [Query(source, columns, where, groupby, having, orderby, rows)]. *)
Record Query : Type := mkQuery {
source : string;
columns : list series.Column;
where_ : option series.Column;
groupby : list series.Column;
having : option series.Column;
orderby : list (series.Column * Direction);
rows : option Parser.Rows
}.

Section Bundle.
(** The symbols the parser was given for the fields and for the sources. *)
Variable field_symbol : string -> string -> result string.
Variable source_symbol : string -> result string.

Definition pop (stack : list string) : result (string * list string) :=
match stack with
| top :: rest => Ok (top, rest)
| [] => Raise (IndexError "pop from empty list")
end.

(** The arguments of an expression, last term first: a column term takes
the fragment on top of the stack, another term is passed as it is. *)
Fixpoint pop_arguments (terms : list (series.Column + kindmod.Any))
     (stack : list string) (done : list Parser.argument)
: result (list Parser.argument * list string) :=
match terms with
| [] => Ok (done, stack)
| inl _ :: terms' =>
  let* '(top, rest) := pop stack in
  pop_arguments terms' rest (Parser.Fragment top :: done)
| inr kind :: terms' =>
  pop_arguments terms' stack (Parser.KindArg kind :: done)
end.

(** Modelled from the spec: the visitor of [parsmod.Bundle], of
[forml.io.dsl.parser], a module that is not among the sources. It keeps
a stack of rendered fragments; a column or expression visit pops the
fragments of its operands and pushes its rendered string. *)
Definition visitor : series.Visitor (list string) :=
series.mkVisitor _
(fun column stack =>
   match column with
   | series.Aliased _ name =>
       let* '(top, rest) := pop stack in
       Ok (Parser.generate_alias top name :: rest)
   | _ => Raise (TypeError "not an aliased column")
   end)
(fun column stack =>
   match column with
   | series.Field table name _ =>
       let* symbol := field_symbol table name in Ok (symbol :: stack)
   | _ => Raise (TypeError "not a field")
   end)
(fun column stack =>
   match column with
   | series.Literal literal =>
       let* symbol := Parser.generate_literal literal in Ok (symbol :: stack)
   | _ => Raise (TypeError "not a literal")
   end)
(fun column stack =>
   match column with
   | series.Expression cls terms =>
       let* '(arguments, rest) := pop_arguments (rev terms) stack [] in
       let* symbol := Parser.generate_expression cls arguments in
       Ok (symbol :: rest)
   | _ => Raise (TypeError "not an expression")
   end).

(** The fragment of one column. *)
Definition parse_column (column : series.Column) : result string :=
let* stack := series.accept visitor column [] in
let* '(top, _) := pop stack in
Ok top.

Fixpoint parse_columns (columns : list series.Column) : result (list string) :=
match columns with
| [] => Ok []
| column :: columns' =>
  let* s := parse_column column in
  let* ss := parse_columns columns' in
  Ok (s :: ss)
end.

Definition parse_optional (column : option series.Column) : result (option string) :=
match column with
| Some c => let* s := parse_column c in Ok (Some s)
| None => Ok None
end.

Fixpoint parse_orderings (orderby : list (series.Column * Direction))
: result (list string) :=
match orderby with
| [] => Ok []
| (column, direction) :: orderby' =>
  let* s := parse_column column in
  let* ss := parse_orderings orderby' in
  Ok (generate_ordering s direction :: ss)
end.

(** The statement of a query: its parts rendered, then
[Parser.generate_query]. *)
Definition parse_query (query : Query) : result string :=
let* source := source_symbol (source query) in
let* columns := parse_columns (columns query) in
let* where_ := parse_optional (where_ query) in
let* groupby := parse_columns (groupby query) in
let* having := parse_optional (having query) in
let* orderby := parse_orderings (orderby query) in
Parser.generate_query source columns where_ groupby having orderby (rows query).
End Bundle.

End Bundle.

(** ** Scenario: the table [T(a: INTEGER, b: INTEGER)] *)

Module S4.

Definition a : series.Column := series.Field "T" "a" kindmod.Integer.
Definition b : series.Column := series.Field "T" "b" kindmod.Integer.

(** [a + b * 2] *)
Definition selected : result series.Column :=
let* product := series.__mul__ (series.Col b) (series.Val (VInt 2)) in
series.__add__ (series.Col a) (series.Col product).

(** [(a > 1) & (b < 3)] *)
Definition condition : result series.Column :=
let* left := series.__gt__ (series.Col a) (series.Val (VInt 1)) in
let* right := series.__lt__ (series.Col b) (series.Val (VInt 3)) in
series.__and__ (series.Col left) (series.Col right).

Definition query : result Bundle.Query :=
let* selected := selected in
let* condition := condition in
Ok (Bundle.mkQuery "T" [selected] (Some condition) [] None [] None).

(** Fields and the table are rendered by their names. *)
Definition statement : result string :=
let* query := query in
Bundle.parse_query (fun _ name => Ok name) (fun name => Ok name) query.

(** The same statement from the emitters of the parser alone, each
    expression generated from the fragments of its operands, innermost
    first. *)
Definition emitted : result string :=
  let* two := Parser.generate_literal (VLiteral (VInt 2) kindmod.Integer) in
  let* product :=
    Parser.generate_expression Parser.Multiplication
      [Parser.Fragment "b"; Parser.Fragment two] in
  let* selected :=
    Parser.generate_expression Parser.Addition
      [Parser.Fragment "a"; Parser.Fragment product] in
  let* one := Parser.generate_literal (VLiteral (VInt 1) kindmod.Integer) in
  let* left :=
    Parser.generate_expression Parser.GreaterThan
      [Parser.Fragment "a"; Parser.Fragment one] in
  let* three := Parser.generate_literal (VLiteral (VInt 3) kindmod.Integer) in
  let* right :=
    Parser.generate_expression Parser.LessThan
      [Parser.Fragment "b"; Parser.Fragment three] in
  let* condition :=
    Parser.generate_expression Parser.And
      [Parser.Fragment left; Parser.Fragment right] in
  Parser.generate_query "T" [selected] (Some condition) [] None [] None.

(** The statement with the product in parentheses, and the one without. *)
Definition parenthesised : string :=
  "SELECT a + (b * 2)" ++ newline ++ "FROM T" ++ newline ++ "WHERE (a > 1) AND (b < 3)".

Definition bare : string :=
  "SELECT a + b * 2" ++ newline ++ "FROM T" ++ newline ++ "WHERE (a > 1) AND (b < 3)".

End S4.

(** ** Shapes of rendered fragments *)

(** The characters [-+*/%] the pattern of [ASSOCIATIVE] refuses. *)
Definition arithmetic (c : ascii) : bool :=
  Ascii.eqb c "-" || Ascii.eqb c "+" || Ascii.eqb c "*" || Ascii.eqb c "/"
  || Ascii.eqb c "%".

(** A character of the class [[^-+*/%\s]]. *)
Definition word_char (c : ascii) : bool := negb (Parser.operator_or_space c).

(** A name as the parser gets it for a field or a table: characters of
    the class above, no parenthesis, no quote. *)
Definition identifier_char (c : ascii) : bool :=
  word_char c && negb (Ascii.eqb c "(") && negb (Ascii.eqb c "'").

Definition identifier (s : string) : bool :=
  negb (String.eqb s "") && forallb identifier_char (list_ascii_of_string s).

(** ** Mode proxies: [Tag.Mode.Proxy] and [Tag.replace] *)

Module Proxy.

(** The keyword arguments of [replace] on a mode: [timestamp], the other
    attribute of the mode ([ordinal] of a training, [score] of a tuning),
    and the names of any further keywords. *)
Record Kwargs : Type := mkKwargs {
  kw_timestamp : option (option datetime);
  kw_value : option pyval;
  kw_unknown : list string
}.

(** [tag.training.replace] with keyword arguments: the mode is rebuilt from its
    attributes overridden by the keywords, and a tag is constructed with it
    in the place of the training mode; the constructor of the mode refuses
    a keyword it does not know. *)
Definition Training_replace (tag : Tag.t) (kwargs : Kwargs) : result Tag.t :=
  match kw_unknown kwargs with
  | key :: _ =>
      Raise (TypeError ("__init__() got an unexpected keyword argument '" ++ key ++ "'"))
  | [] =>
      let self_mode := Tag.training tag in
      let mode :=
        Tag.mkTraining
          (match kw_timestamp kwargs with
           | Some timestamp => timestamp
           | None => Tag.training_timestamp self_mode
           end)
          (match kw_value kwargs with
           | Some ordinal => ordinal
           | None => Tag.ordinal self_mode
           end) in
      Ok (Tag.new (Some mode) (Some (Tag.tuning tag)) (Some (Tag.states tag)))
  end.

(** [tag.tuning.replace] with keyword arguments *)
Definition Tuning_replace (tag : Tag.t) (kwargs : Kwargs) : result Tag.t :=
  match kw_unknown kwargs with
  | key :: _ =>
      Raise (TypeError ("__init__() got an unexpected keyword argument '" ++ key ++ "'"))
  | [] =>
      let self_mode := Tag.tuning tag in
      let mode :=
        Tag.mkTuning
          (match kw_timestamp kwargs with
           | Some timestamp => timestamp
           | None => Tag.tuning_timestamp self_mode
           end)
          (match kw_value kwargs with
           | Some score => score
           | None => Tag.score self_mode
           end) in
      Ok (Tag.new (Some (Tag.training tag)) (Some mode) (Some (Tag.states tag)))
  end.

(** [tag.training.trigger(timestamp=None)]:
    [self.replace(timestamp=(timestamp or datetime.datetime.utcnow()))],
    with the reading [utcnow] of the clock. *)
Definition Training_trigger (tag : Tag.t) (timestamp : option datetime)
           (utcnow : datetime) : result Tag.t :=
  Training_replace tag
    (mkKwargs (Some (Some (match timestamp with Some ts => ts | None => utcnow end)))
              None []).

(** [tag.tuning.trigger(timestamp=None)] *)
Definition Tuning_trigger (tag : Tag.t) (timestamp : option datetime)
           (utcnow : datetime) : result Tag.t :=
  Tuning_replace tag
    (mkKwargs (Some (Some (match timestamp with Some ts => ts | None => utcnow end)))
              None []).

(** The keyword arguments of [Tag.replace]: a value for a field of the
    tuple, and the names of any further keywords. *)
Record Replacement : Type := mkReplacement {
  r_training : option Tag.Training;
  r_tuning : option Tag.Tuning;
  r_states : option (list UUID);
  r_unknown : list string
}.

(** [Tag.replace] with keyword arguments: only the fields that hold no mode, which is
    [states], may be named; [_replace] then builds the tuple without going
    through [Tag.__new__]. *)
Definition replace (self : Tag.t) (kwargs : Replacement) : result Tag.t :=
  match r_training kwargs, r_tuning kwargs, r_unknown kwargs with
  | None, None, [] =>
      Ok (Tag.mk (Tag.training self) (Tag.tuning self)
                 (match r_states kwargs with
                  | Some states => states
                  | None => Tag.states self
                  end))
  | _, _, _ => Raise (ValueError "Invalid replacement")
  end.

End Proxy.

(** ** A training run: [Runner.train] *)

Module Launch.

Section Train.
(** [self._assets.tag] and [self._build] as in [Runner.train_composition];
    the attributes [train] and [shared] of the composition built,
    [self._assets.state] and [compiler.generate], of modules that are not
    among the sources; [self._run], which the runners implement; [utcnow]
    is the reading of the clock. *)
Context {Composition Segment Shared State Symbols Outcome : Type}.
Variable assets_tag : result Tag.t.
Variable _build : pyval -> pyval -> result Composition.
Variable composition_train : Composition -> result Segment.
Variable composition_shared : Composition -> result Shared.
Variable assets_state : Shared -> Tag.t -> result State.
Variable compiler_generate : Segment -> option State -> result Symbols.
Variable _run : Symbols -> result Outcome.
Variable utcnow : datetime.

(** [Runner._exec(path, assets=None)] *)
Definition _exec (path : Segment) (assets : option State) : result Outcome :=
  let* symbols := compiler_generate path assets in
  _run symbols.

(** [Runner.train]: after the build, [self._assets.tag] is read again, for
    [self._assets.tag.training.trigger()], whatever [lower] is. The
    arguments of [self._exec] and of [self._assets.state] are evaluated in
    the order written. *)
Definition train (lower upper : pyval) : result Outcome :=
  let* composition := Runner.train_composition assets_tag _build lower upper in
  let* path := composition_train composition in
  let* shared := composition_shared composition in
  let* tag := assets_tag in
  let* triggered := Proxy.Training_trigger tag None utcnow in
  let* state := assets_state shared triggered in
  _exec path (Some state).
End Train.

End Launch.

(** ** The states of a generation: [Level.get] *)

Module States.

(** The argument of [get]: a positional index or the id of a state. *)
Inductive Sid : Type :=
| Index (index : Z)
| Id (sid : UUID).

(** [sequence[index]] on a tuple: a negative index counts from the end. *)
Definition tuple_getitem {A : Type} (sequence : list A) (index : Z) : result A :=
  let size := Z.of_nat (length sequence) in
  let position := if (index <? 0)%Z then (index + size)%Z else index in
  if ((0 <=? position) && (position <? size))%Z then
    match nth_error sequence (Z.to_nat position) with
    | Some item => Ok item
    | None => Raise (IndexError "tuple index out of range")
    end
  else Raise (IndexError "tuple index out of range").

Section Get.
(** The keys and the cached registry reads as in [Level.tag]; [STATES] is
    the cached [persistent.Registry.read], [self_str] the text [str(self)]
    of the generation. *)
Context {ProjectKey LineageKey : Type}.
Variable project_key : result ProjectKey.
Variable lineage_key : result LineageKey.
Variable self_key : result Z.
Variable TAGS : ProjectKey -> LineageKey -> Z -> result Tag.t.
Variable STATES : ProjectKey -> LineageKey -> Z -> UUID -> result (list Byte.byte).
Variable self_str : string.

(** [Level.get]; [self.tag] is read each time the code names it. *)
Definition get (sid : Sid) : result (list Byte.byte) :=
  let* tag := Level.tag project_key lineage_key self_key TAGS in
  if negb (Tag.Training_bool (Tag.training tag)) then Ok []
  else
    let* sid :=
      match sid with
      | Index index =>
          let* tag := Level.tag project_key lineage_key self_key TAGS in
          tuple_getitem (Tag.states tag) index
      | Id sid => Ok sid
      end in
    let* tag := Level.tag project_key lineage_key self_key TAGS in
    if negb (existsb (Z.eqb sid) (Tag.states tag)) then
      Raise (LevelInvalid ("Unknown state reference for " ++ self_str ++ ": "
                           ++ uuid_str sid))
    else
      let* project := project_key in
      let* lineage := lineage_key in
      let* generation := self_key in
      STATES project lineage generation sid.
End Get.

End States.

(** ** Visits of a column *)

Module Visits.

(** A visitor that notes the column each hook is called with. *)
Definition recorder : series.Visitor (list series.Column) :=
  series.mkVisitor _
    (fun column visited => Ok (visited ++ [column])%list)
    (fun column visited => Ok (visited ++ [column])%list)
    (fun column visited => Ok (visited ++ [column])%list)
    (fun column visited => Ok (visited ++ [column])%list).

(** The columns of a column in post-order: those of the terms, left to
    right, then the column; a term of an expression that is an aliased
    column, or no column, has none. *)
Fixpoint postorder (column : series.Column) : list series.Column :=
  match column with
  | series.Aliased element _ => postorder element ++ [column]
  | series.Literal _ => [column]
  | series.Field _ _ _ => [column]
  | series.Expression _ terms =>
      (fix each (terms : list (series.Column + kindmod.Any)) : list series.Column :=
         match terms with
         | [] => []
         | inl (series.Aliased _ _) :: terms' => each terms'
         | inl term :: terms' => postorder term ++ each terms'
         | inr _ :: terms' => each terms'
         end) terms ++ [column]
  end%list.

End Visits.

(** ** Flow graph views: [forml.flow.graph.view] *)

Module port.

(** Modelled from the spec: the port kinds of [forml.flow.graph.port], a
    module that is not among the sources: [Apply(i)], [Train] and
    [Label], where [i] is the index of an apply port. *)
Inductive Type_ : Type :=
| Apply (index : nat)
| Train
| Label.

(** [isinstance(port, port.Apply)] *)
Definition is_apply (p : Type_) : bool :=
  match p with Apply _ => true | _ => false end.

(** [isinstance(port, (port.Train, port.Label))] *)
Definition is_train_or_label (p : Type_) : bool :=
  match p with Train | Label => true | Apply _ => false end.

End port.

Module grnode.

(** Modelled from the spec: the nodes of [forml.flow.graph.node], a module
    that is not among the sources. A node is known by its identity (the
    nodes meant are workers, which compare and hash by identity, and are
    truthy); a subscription is the subscribed node and its port. What a
    view reads of a node, its [output], [szin] and [szout], are
    parameters of the sections below. *)
Definition Atomic : Type := nat.

Record Subscription : Type := mkSubscription {
  node : Atomic;
  port : port.Type_
}.

End grnode.

(** Python sets of nodes: lists without repetition, in the order of
    insertion. The order a set is iterated in, and the element [pop]
    takes, are not fixed by Python: they are parameters. *)
Module nodeset.

Definition member (x : grnode.Atomic) (s : list grnode.Atomic) : bool :=
  existsb (Nat.eqb x) s.

Definition add (x : grnode.Atomic) (s : list grnode.Atomic) : list grnode.Atomic :=
  if member x s then s else (s ++ [x])%list.

Definition of_list (l : list grnode.Atomic) : list grnode.Atomic :=
  fold_left (fun s x => add x s) l [].

Definition isdisjoint (s1 s2 : list grnode.Atomic) : bool :=
  forallb (fun x => negb (member x s2)) s1.

End nodeset.

Module Path.

(** [expected and node == expected] *)
Definition is_expected (expected : option grnode.Atomic) (node : grnode.Atomic) : bool :=
  match expected with
  | Some e => Nat.eqb node e
  | None => false
  end.

(** The loop of [Path.tail] over the subscribers: the tail of each, the
    expected one returned at once ([inl]), the others collected ([inr]). *)
Fixpoint endings (tail : grnode.Atomic -> result grnode.Atomic)
         (expected : option grnode.Atomic) (nodes : list grnode.Atomic)
         (collected : list grnode.Atomic)
  : result (grnode.Atomic + list grnode.Atomic) :=
  match nodes with
  | [] => Ok (inr collected)
  | node :: nodes' =>
      let* found := tail node in
      if is_expected expected found then Ok (inl found)
      else endings tail expected nodes' (nodeset.add found collected)
  end.

Section Path.
Variable output : grnode.Atomic -> list (list grnode.Subscription).
Variable szin : grnode.Atomic -> nat.
Variable szout : grnode.Atomic -> nat.
(** The order a set is iterated in, and the element [set.pop] takes. *)
Variable order : list grnode.Atomic -> list grnode.Atomic.
Variable pop : list grnode.Atomic -> grnode.Atomic.

(** [s for p in node.output for s in p] *)
Definition subscriptions (publisher : grnode.Atomic) : list grnode.Subscription :=
  concat (output publisher).

(** [{s.node for p in head.output for s in p if isinstance(s.port, port.Apply)}] *)
Definition apply_subscribers (head : grnode.Atomic) : list grnode.Atomic :=
  nodeset.of_list
    (map grnode.node
         (List.filter (fun s => port.is_apply (grnode.port s)) (subscriptions head))).

(** [Path.tail(head, expected, path)]; [limit] is the depth of recursion
    the interpreter allows. *)
Fixpoint tail (limit : nat) (head : grnode.Atomic) (expected : option grnode.Atomic)
         (path : list grnode.Atomic) : result grnode.Atomic :=
  match limit with
  | O => Raise RecursionError
  | S limit' =>
      if is_expected expected head then Ok head
      else
        let subscribers := apply_subscribers head in
        match subscribers with
        | [] => Ok head
        | _ :: _ =>
            let path := nodeset.add head path in
            let* _ := assert (nodeset.isdisjoint subscribers path) "Cyclic flow" in
            let* found :=
              endings (fun node => tail limit' node expected path) expected
                      (order subscribers) [] in
            match found with
            | inl tail => Ok tail
            | inr collected =>
                let* _ :=
                  assert ((1 <? length path)%nat
                          || (match expected with None => true | Some _ => false end
                              && (length collected =? 1)%nat))
                         "Ambiguous tail" in
                match collected with
                | [] => Raise (KeyError "pop from an empty set")
                | _ :: _ => Ok (pop collected)
                end
            end
        end
  end.

(** The two classes of a path. *)
Inductive Class : Type := Channel | Closure.

(** A path: the tuple [(head, tail)] of its class. *)
Record t : Type := mk {
  cls : Class;
  _head : grnode.Atomic;
  _tail : grnode.Atomic
}.

(** [Path.__new__(cls, head, tail=None)] *)
Definition new (limit : nat) (head : grnode.Atomic) (tail_ : option grnode.Atomic)
  : result t :=
  let* _ := assert ((szin head =? 0)%nat || (szin head =? 1)%nat)
                   "Simple head required" in
  let* tail_ := tail limit head tail_ [] in
  let* _ := assert ((szout tail_ =? 0)%nat || (szout tail_ =? 1)%nat)
                   "Simple tail required" in
  let cls :=
    if existsb (fun s => port.is_train_or_label (grnode.port s)) (subscriptions tail_)
    then Closure else Channel in
  Ok (mk cls head tail_).

(** [Closure.extend(right=None, tail=None)]; a path is a tuple of two
    members, so [not right] holds for no path. *)
Definition Closure_extend (limit : nat) (self : t) (right : option t)
           (tail_ : option grnode.Atomic) : result t :=
  match right with
  | Some _ => Raise (AssertionError "Connecting closure path")
  | None =>
      if match tail_ with
         | None => true
         | Some node => Nat.eqb node (_tail self)
         end
      then new limit (_head self) (Some (_tail self))
      else Raise (AssertionError "Connecting closure path")
  end.

(** [Channel.extend(right=None, tail=None)] called without a [right]
    path: the path is retraced to the given tail, or else to the tail
    found from its own. (With a [right] path the call first subscribes the
    head of that path to the tail, which changes the graph.) *)
Definition Channel_extend (limit : nat) (self : t) (tail_ : option grnode.Atomic)
  : result t :=
  let* tail_ :=
    match tail_ with
    | Some node => Ok node
    | None => tail limit (_tail self) None []
    end in
  new limit (_head self) (Some tail_).

(** [Closure.Publishable.republish(subscription)], with the [republish]
    of the wrapped publisher. *)
Definition republish {Published : Type}
           (publisher : grnode.Subscription -> result Published)
           (subscription : grnode.Subscription) : result Published :=
  let* _ := assert (port.is_train_or_label (grnode.port subscription))
                   "Closure path publishing" in
  publisher subscription.
End Path.

End Path.

Module PreOrder.

Section PreOrder.
Variable output : grnode.Atomic -> list (list grnode.Subscription).
Variable order : list grnode.Atomic -> list grnode.Atomic.
(** [visit_node] of the visitor, on the state it keeps. *)
Context {State : Type}.
Variable visit_node : grnode.Atomic -> State -> result State.

(** The subscribers [scan] goes on with: not seen yet, and not reached
    from the tail through an apply port. *)
Definition subscribers (tail publisher : grnode.Atomic) (seen : list grnode.Atomic)
  : list grnode.Atomic :=
  nodeset.of_list
    (map grnode.node
         (List.filter
            (fun s => negb (nodeset.member (grnode.node s) seen)
                      && (negb (Nat.eqb publisher tail)
                          || negb (port.is_apply (grnode.port s))))
            (Path.subscriptions output publisher))).

(** The loop of [scan] over the subscribers. *)
Fixpoint each (scan : grnode.Atomic -> State * list grnode.Atomic
                      -> result (State * list grnode.Atomic))
         (nodes : list grnode.Atomic) (st : State * list grnode.Atomic)
  : result (State * list grnode.Atomic) :=
  match nodes with
  | [] => Ok st
  | node :: nodes' => let* st := scan node st in each scan nodes' st
  end.

(** [scan(publisher, path)] of [PreOrder.visit_path]; the state is the
    one of the visitor with the set [seen]. *)
Fixpoint scan (limit : nat) (tail publisher : grnode.Atomic)
         (path : list grnode.Atomic) (st : State * list grnode.Atomic)
  : result (State * list grnode.Atomic) :=
  match limit with
  | O => Raise RecursionError
  | S limit' =>
      let* visited := visit_node publisher (fst st) in
      let seen := nodeset.add publisher (snd st) in
      let subscribers := subscribers tail publisher seen in
      match subscribers with
      | [] => Ok (visited, seen)
      | _ :: _ =>
          let path := nodeset.add publisher path in
          let* _ := assert (nodeset.isdisjoint subscribers path) "Cyclic flow" in
          each (fun node st => scan limit' tail node path st) (order subscribers)
               (visited, seen)
      end
  end.

(** What [scan] may end with, from a state: a state that has seen no
    less, the recursion limit, or an exception of [visit_node]. *)
Definition scan_outcome (st : State * list grnode.Atomic)
    (r : result (State * list grnode.Atomic)) : Prop :=
  match r with
  | Ok st' => incl (snd st) (snd st')
  | Raise e => e = RecursionError \/ exists node s, visit_node node s = Raise e
  end.

(** [PreOrder.visit_path(head, tail)] *)
Definition visit_path (limit : nat) (head tail : grnode.Atomic) (st : State)
  : result State :=
  let* st := scan limit tail head [] (st, []) in Ok (fst st).
End PreOrder.

End PreOrder.

(** ** Shapes of graphs *)

Module Shape.

Section Shape.
Variable apply_subscribers : grnode.Atomic -> list grnode.Atomic.

(** A chain: each node has the next one as its only apply subscriber, and
    the last one has none. *)
Fixpoint is_chain (chain : list grnode.Atomic) : Prop :=
  match chain with
  | [] => True
  | node :: chain' =>
      match chain' with
      | [] => apply_subscribers node = []
      | next :: _ => apply_subscribers node = [next] /\ is_chain chain'
      end
  end.

(** A node without apply subscribers. *)
Definition is_leaf (node : grnode.Atomic) : Prop := apply_subscribers node = [].
End Shape.

(** The end of a chain for an expected node: the node when it is on the
    chain, the last node otherwise. *)
Definition chain_end (expected : option grnode.Atomic) (head : grnode.Atomic)
    (chain : list grnode.Atomic) : grnode.Atomic :=
  match expected with
  | Some e => if nodeset.member e (head :: chain) then e else List.last chain head
  | None => List.last chain head
  end.

End Shape.

(** ** Scenario graphs *)

Module Scenario.

(** A Python that iterates a set in the order of insertion and pops its
    first element. *)
Definition order (s : list grnode.Atomic) : list grnode.Atomic := s.
Definition pop (s : list grnode.Atomic) : grnode.Atomic := hd 0%nat s.

(** Every node with one apply input and one apply output. *)
Definition simple (_ : grnode.Atomic) : nat := 1%nat.

(** The chain [0 -> 1 -> 2], whose last node publishes to the train port of
    node 3. *)
Definition chain (node : grnode.Atomic) : list (list grnode.Subscription) :=
  match node with
  | 0%nat => [[grnode.mkSubscription 1 (port.Apply 0)]]
  | 1%nat => [[grnode.mkSubscription 2 (port.Apply 0)]]
  | 2%nat => [[grnode.mkSubscription 3 port.Train]]
  | _ => []
  end.

(** A head with two apply outputs, each subscribed by a leaf. *)
Definition fork (node : grnode.Atomic) : list (list grnode.Subscription) :=
  match node with
  | 0%nat => [[grnode.mkSubscription 1 (port.Apply 0)];
              [grnode.mkSubscription 2 (port.Apply 0)]]
  | _ => []
  end.

(** The same fork below a head: [0 -> 1], [1 -> 2] and [1 -> 3]. *)
Definition deep_fork (node : grnode.Atomic) : list (list grnode.Subscription) :=
  match node with
  | 0%nat => [[grnode.mkSubscription 1 (port.Apply 0)]]
  | 1%nat => [[grnode.mkSubscription 2 (port.Apply 0)];
              [grnode.mkSubscription 3 (port.Apply 0)]]
  | _ => []
  end.

(** The cycle [0 -> 1 -> 0], with the leaf 2 subscribed to node 1 as
    well. *)
Definition cycle (node : grnode.Atomic) : list (list grnode.Subscription) :=
  match node with
  | 0%nat => [[grnode.mkSubscription 1 (port.Apply 0)]]
  | 1%nat => [[grnode.mkSubscription 0 (port.Apply 0);
               grnode.mkSubscription 2 (port.Apply 0)]]
  | _ => []
  end.

(** A visitor that notes the nodes it visits, and one that fails at
    node 2. *)
Definition noting (node : grnode.Atomic) (visited : list grnode.Atomic)
  : result (list grnode.Atomic) :=
  Ok (visited ++ [node])%list.

Definition failing (node : grnode.Atomic) (visited : list grnode.Atomic)
  : result (list grnode.Atomic) :=
  if Nat.eqb node 2 then Raise (ValueError "node 2") else Ok (visited ++ [node])%list.

End Scenario.

(** * Properties *)

(** ** Integers and their decimal strings *)

Lemma py_int_str (n : Z) : py_int (py_str n) = Ok n.
Proof.
  unfold py_int, py_str.
  rewrite NilZero.isi.
  - now rewrite DecimalZ.of_to.
  - destruct n; simpl; try discriminate.
    intros [= H]. revert H. apply DecimalPos.Unsigned.to_uint_nonnil.
  - destruct n; simpl; try discriminate.
    intros [= H]. revert H. apply DecimalPos.Unsigned.to_uint_nonnil.
Qed.

(** ** Generation keys *)

Lemma Key_new_ok (n : Z) : (1 <= n)%Z -> Level.Key.new n = Ok n.
Proof.
  intros Hn. unfold Level.Key.new. rewrite py_int_str.
  destruct (Z.ltb_spec n Level.Key.MIN) as [Hlt | _]; [ | reflexivity].
  unfold Level.Key.MIN in Hlt. lia.
Qed.

Lemma Key_new_invalid (n : Z) :
  (n < 1)%Z ->
  Level.Key.new n = Raise (LevelInvalid ("Invalid key " ++ py_str n ++ " (not natural)")).
Proof.
  intros Hn. unfold Level.Key.new. rewrite py_int_str.
  destruct (Z.ltb_spec n Level.Key.MIN) as [_ | Hge]; [reflexivity | ].
  unfold Level.Key.MIN in Hge. lia.
Qed.

(** C6. For every integer [n >= 1], [Key(n).next] is the key that [Key(n+1)]
    constructs, the integer [n + 1]; [Key(0)] and [Key(-1)] raise
    [Invalid]. *)
Theorem Key_next_successor (n : Z) :
  (1 <= n)%Z ->
  (let* k := Level.Key.new n in Level.Key.next k) = Level.Key.new (n + 1) /\
  Level.Key.new (n + 1) = Ok (n + 1)%Z /\
  Level.Key.new 0 = Raise (LevelInvalid "Invalid key 0 (not natural)") /\
  Level.Key.new (-1) = Raise (LevelInvalid "Invalid key -1 (not natural)").
Proof.
  intros Hn. repeat split.
  - now rewrite (Key_new_ok n Hn).
  - apply Key_new_ok. lia.
Qed.

Lemma Key_next_successor_witness :
  (let* k := Level.Key.new 1 in Level.Key.next k) = Level.Key.new (1 + 1) /\
  Level.Key.new (1 + 1) = Ok (1 + 1)%Z /\
  Level.Key.new 0 = Raise (LevelInvalid "Invalid key 0 (not natural)") /\
  Level.Key.new (-1) = Raise (LevelInvalid "Invalid key -1 (not natural)").
Proof. apply (Key_next_successor 1). lia. Defined.

(** ** The lower bound of a training run *)

Section TrainBounds.
Context {Composition : Type}.
Variable _build : pyval -> pyval -> result Composition.

Lemma train_lower_none (tag : Tag.t) (upper : pyval) :
  Runner.train_composition (Ok tag) _build PyNone upper
  = _build (Tag.ordinal (Tag.training tag)) upper.
Proof. reflexivity. Qed.

Lemma train_lower_truthy (assets_tag : result Tag.t) (lower upper : pyval) :
  truthy lower = true ->
  Runner.train_composition assets_tag _build lower upper = _build lower upper.
Proof. intros H. unfold Runner.train_composition, py_or. now rewrite H. Qed.

Lemma train_lower_falsy (tag : Tag.t) (lower upper : pyval) :
  truthy lower = false ->
  Runner.train_composition (Ok tag) _build lower upper
  = _build (Tag.ordinal (Tag.training tag)) upper.
Proof. intros H. unfold Runner.train_composition, py_or. now rewrite H. Qed.
End TrainBounds.

(** C7. The lower bound [0], given to [train], does not reach the ETL build:
    the build receives the ordinal 42 of the tag instead, where [apply]
    forwards the bound. *)
Theorem train_lower_zero_not_forwarded :
  Runner.train_composition (Ok tag42) (fun lower upper => Ok (lower, upper))
                           (PyInt 0) PyNone
  = Ok (PyInt 42, PyNone) /\
  Runner.apply_composition (fun lower upper => Ok (lower, upper)) (PyInt 0) PyNone
  = Ok (PyInt 0, PyNone).
Proof. split; reflexivity. Qed.

(** ** The tag of a generation *)

(** C9. When the key lookup of the generation raises [Listing.Empty], while
    the project and the lineage have keys, [Level.tag] returns [NOTAG]
    instead of raising; [NOTAG] has no timestamp and no states. *)
Theorem tag_of_empty_lineage
    {ProjectKey LineageKey : Type} (project : ProjectKey) (lineage : LineageKey)
    (msg : string) (TAGS : ProjectKey -> LineageKey -> Z -> result Tag.t) :
  Level.tag (Ok project) (Ok lineage) (Raise (ListingEmpty msg)) TAGS = Ok NOTAG /\
  Tag.training_timestamp (Tag.training NOTAG) = None /\
  Tag.tuning_timestamp (Tag.tuning NOTAG) = None /\
  Tag.states NOTAG = [].
Proof. repeat split. Qed.

Lemma tag_other_error_propagates
    {ProjectKey LineageKey : Type} (project : ProjectKey) (lineage : LineageKey)
    (msg : string) (TAGS : ProjectKey -> LineageKey -> Z -> result Tag.t) :
  Level.tag (Ok project) (Ok lineage) (Raise (LevelInvalid msg)) TAGS
  = Raise (LevelInvalid msg).
Proof. reflexivity. Qed.

(** ** Fixed-width numerals read back *)





(** ** Timestamps read back *)



Lemma year_width_positive (y : Z) : exists w, year_width y = S w.
Proof.
  unfold year_width.
  repeat match goal with |- context [if ?c then _ else _] => destruct c end; eauto.
Qed.


(** ** UUIDs read back *)



Lemma length_numeral (b : Z) (w : nat) (n : Z) (rest : string) :
  String.length (numeral b w n rest) = (w + String.length rest)%nat.
Proof.
  revert n rest. induction w as [ | w IH]; intros n rest; [reflexivity | ].
  cbn [numeral]. rewrite IH. cbn [String.length]. lia.
Qed.




(** ** Tags read back *)









(** ** The matcher *)

Lemma rounds_self (step : re.state -> list re.state) (fuel : nat) (st : re.state) :
  In st (re.rounds step fuel st).
Proof. destruct fuel; cbn; [now left | ]. apply in_or_app. right. now left. Qed.

Lemma run_seq (r1 r2 : re.pattern) (st1 st2 st3 : re.state) :
  In st2 (re.run r1 st1) -> In st3 (re.run r2 st2) -> In st3 (re.run (re.Seq r1 r2) st1).
Proof. intros H1 H2. cbn. apply in_flat_map. eauto. Qed.

(** A repeated class reads any prefix made of its members. *)
Lemma rounds_class_prefix (member : ascii -> bool) (pre post : list ascii)
    (groups : list nat) (fuel : nat) :
  forallb member pre = true -> (length pre <= fuel)%nat ->
  In (post, groups) (re.rounds (re.run (re.Class member)) fuel ((pre ++ post)%list, groups)).
Proof.
  revert fuel. induction pre as [ | c pre IH]; intros fuel Hall Hlen.
  - apply rounds_self.
  - cbn in Hall. apply andb_true_iff in Hall as [Hc Hall].
    destruct fuel as [ | fuel]; [cbn in Hlen; lia | ].
    cbn [re.rounds]. apply in_or_app. left.
    cbn [re.run fst snd app]. rewrite Hc.
    rewrite filter_cons_True
      by (unfold re.shorter; apply Nat.ltb_lt; cbn [fst length]; lia).
    rewrite filter_nil. cbn [flat_map].
    rewrite app_nil_r. apply IH; [assumption | cbn in Hlen; lia].
Qed.

Lemma run_star_class (member : ascii -> bool) (pre post : list ascii)
    (groups : list nat) :
  forallb member pre = true ->
  In (post, groups) (re.run (re.Star (re.Class member)) ((pre ++ post)%list, groups)).
Proof.
  intros Hall. cbn [re.run fst]. apply rounds_class_prefix; [assumption | ].
  pose proof (length_app pre post) as E. cbn in *. lia.
Qed.

Lemma run_plus_class (member : ascii -> bool) (c : ascii) (pre post : list ascii)
    (groups : list nat) :
  forallb member (c :: pre) = true ->
  In (post, groups) (re.run (re.Plus (re.Class member)) ((c :: pre ++ post)%list, groups)).
Proof.
  intros Hall. cbn in Hall. apply andb_true_iff in Hall as [Hc Hall].
  cbn [re.run fst snd]. rewrite Hc. cbn [flat_map]. rewrite app_nil_r.
  apply rounds_class_prefix; [assumption | pose proof (length_app pre post) as E; cbn in *; lia].
Qed.

Lemma run_lit (s : string) (post : list ascii) (groups : list nat) :
  In (post, groups) (re.run (re.lit s) ((list_ascii_of_string s ++ post)%list, groups)).
Proof.
  induction s as [ | c s IH]; [now left | ].
  cbn [re.lit list_ascii_of_string app].
  apply run_seq with (st2 := ((list_ascii_of_string s ++ post)%list, groups)); [ | exact IH].
  cbn. rewrite Ascii.eqb_refl. now left.
Qed.

Lemma fullmatch_intro (r : re.pattern) (s : string) (groups : list nat) :
  In ([], groups) (re.run r (list_ascii_of_string s, [])) -> re.fullmatch r s = true.
Proof.
  intros H. unfold re.fullmatch. apply existsb_exists. now exists ([], groups).
Qed.

(** ** The pattern [ASSOCIATIVE] and [clean] *)

Lemma list_ascii_app (s1 s2 : string) :
  list_ascii_of_string (s1 ++ s2) = (list_ascii_of_string s1 ++ list_ascii_of_string s2)%list.
Proof.
  induction s1 as [ | c s1 IH]; [reflexivity | ].
  change (String c s1 ++ s2) with (String c (s1 ++ s2)).
  cbn [list_ascii_of_string app]. now f_equal.
Qed.

Lemma run_alt_l (r1 r2 : re.pattern) (st st' : re.state) :
  In st' (re.run r1 st) -> In st' (re.run (re.Alt r1 r2) st).
Proof. intros H. cbn [re.run]. apply in_or_app. now left. Qed.

Lemma run_alt_r (r1 r2 : re.pattern) (st st' : re.state) :
  In st' (re.run r2 st) -> In st' (re.run (re.Alt r1 r2) st).
Proof. intros H. cbn [re.run]. apply in_or_app. now right. Qed.

Lemma run_opt_skip (r : re.pattern) (st : re.state) : In st (re.run (re.Opt r) st).
Proof. cbn [re.run]. apply in_or_app. right. now left. Qed.

Lemma run_opt_take (r : re.pattern) (st st' : re.state) :
  In st' (re.run r st) -> In st' (re.run (re.Opt r) st).
Proof. intros H. cbn [re.run]. apply in_or_app. now left. Qed.

Lemma run_group (n : nat) (r : re.pattern) (st : re.state) (rest : list ascii)
    (groups : list nat) :
  In (rest, groups) (re.run r st) -> In (rest, n :: groups) (re.run (re.Group n r) st).
Proof.
  intros H. cbn [re.run]. apply in_map_iff. now exists (rest, groups).
Qed.

Lemma run_chr (c : ascii) (rest : list ascii) (groups : list nat) :
  In (rest, groups) (re.run (re.chr c) (c :: rest, groups)).
Proof. cbn. rewrite Ascii.eqb_refl. now left. Qed.

Lemma run_ifgroup_unset (n : nat) (yes no : re.pattern) (st st' : re.state) :
  existsb (Nat.eqb n) (snd st) = false ->
  In st' (re.run no st) -> In st' (re.run (re.IfGroup n yes no) st).
Proof. intros Hn H. cbn [re.run]. now rewrite Hn. Qed.

Lemma run_ifgroup_set (n : nat) (yes no : re.pattern) (st st' : re.state) :
  existsb (Nat.eqb n) (snd st) = true ->
  In st' (re.run yes st) -> In st' (re.run (re.IfGroup n yes no) st).
Proof. intros Hn H. cbn [re.run]. now rewrite Hn. Qed.

Lemma run_star_nothing (member : ascii -> bool) (st : re.state) :
  In st (re.run (re.Star (re.Class member)) st).
Proof. destruct st as [l groups]. now apply (run_star_class member [] l groups). Qed.

Lemma fullmatch_word (s : string) :
  s <> "" -> forallb word_char (list_ascii_of_string s) = true ->
  re.fullmatch Parser.ASSOCIATIVE s = true.
Proof.
  intros Hs Hw. apply fullmatch_intro with (groups := []).
  destruct s as [ | c s]; [congruence | ]. cbn [list_ascii_of_string] in *.
  set (l := list_ascii_of_string s) in *.
  unfold Parser.ASSOCIATIVE.
  eapply run_seq; [apply run_star_nothing | ].
  eapply run_seq with (st2 := ([], [])); [ | apply run_star_nothing].
  apply run_alt_l.
  eapply run_seq; [apply run_opt_skip | ].
  eapply run_seq; [apply run_star_nothing | ].
  eapply run_seq with (st2 := ([], [])).
  { pose proof (run_plus_class (fun c => negb (Parser.operator_or_space c)) c l [] [] Hw) as H.
    now rewrite app_nil_r in H. }
  eapply run_seq; [apply run_star_nothing | ].
  apply run_ifgroup_unset; [reflexivity | now left].
Qed.

Lemma fullmatch_parenthesised (w rest : string) :
  w <> "" -> forallb word_char (list_ascii_of_string w) = true ->
  forallb re.dot (list_ascii_of_string rest) = true ->
  re.fullmatch Parser.ASSOCIATIVE ("(" ++ w ++ rest ++ ")") = true.
Proof.
  intros Hs Hw Hrest. apply fullmatch_intro with (groups := [1%nat]).
  change ("(" ++ w ++ rest ++ ")") with (String "(" (w ++ rest ++ ")")).
  cbn [list_ascii_of_string]. rewrite !list_ascii_app.
  destruct w as [ | c w]; [congruence | ]. cbn [list_ascii_of_string app] in *.
  set (lw := list_ascii_of_string w) in *.
  set (lr := list_ascii_of_string rest) in *.
  unfold Parser.ASSOCIATIVE.
  eapply run_seq; [apply run_star_nothing | ].
  eapply run_seq with (st2 := ([], [1%nat])); [ | apply run_star_nothing].
  apply run_alt_l.
  eapply run_seq with (st2 := ((c :: lw ++ lr ++ [")"%char])%list, [1%nat])).
  { apply run_opt_take, run_group.
    eapply run_seq; [apply run_star_nothing | apply run_chr]. }
  eapply run_seq; [apply run_star_nothing | ].
  eapply run_seq with (st2 := ((lr ++ [")"%char])%list, [1%nat])).
  { apply (run_plus_class (fun c => negb (Parser.operator_or_space c)) c lw). exact Hw. }
  eapply run_seq; [apply run_star_nothing | ].
  apply run_ifgroup_set; [reflexivity | ].
  eapply run_seq; [apply (run_star_class re.dot lr); exact Hrest | apply run_chr].
Qed.


Lemma run_class_inv (member : ascii -> bool) (st st' : re.state) :
  In st' (re.run (re.Class member) st) ->
  exists c, fst st = c :: fst st' /\ snd st' = snd st /\ member c = true.
Proof.
  destruct st as [l g]. cbn [re.run fst snd]. destruct l as [ | c rest]; [intros [] | ].
  destruct (member c) eqn:Hc; [ | intros []].
  intros [<- | []]. now exists c.
Qed.

Lemma rounds_class_inv (member : ascii -> bool) (fuel : nat) (st st' : re.state) :
  In st' (re.rounds (re.run (re.Class member)) fuel st) ->
  exists pre, fst st = (pre ++ fst st')%list /\ snd st' = snd st
              /\ forallb member pre = true.
Proof.
  revert st. induction fuel as [ | fuel IH]; intros st H.
  - destruct H as [<- | []]. now exists [].
  - cbn [re.rounds] in H. apply in_app_or in H as [H | [<- | []]]; [ | now exists []].
    apply in_flat_map in H as (st1 & H1 & H).
    apply list_elem_of_In, list_elem_of_filter in H1 as [_ H1].
    apply list_elem_of_In, run_class_inv in H1 as (c & E1 & E2 & Hc).
    apply IH in H as (pre & E3 & E4 & Hpre).
    exists (c :: pre). rewrite E1, E3. repeat split; [congruence | ].
    cbn. now rewrite Hc.
Qed.

Lemma run_star_class_inv (member : ascii -> bool) (st st' : re.state) :
  In st' (re.run (re.Star (re.Class member)) st) ->
  exists pre, fst st = (pre ++ fst st')%list /\ snd st' = snd st
              /\ forallb member pre = true.
Proof. apply rounds_class_inv. Qed.

Lemma run_plus_class_inv (member : ascii -> bool) (st st' : re.state) :
  In st' (re.run (re.Plus (re.Class member)) st) ->
  exists pre, fst st = (pre ++ fst st')%list /\ snd st' = snd st
              /\ forallb member pre = true.
Proof.
  cbn [re.run]. intros H. apply in_flat_map in H as (st1 & H1 & H).
  apply run_class_inv in H1 as (c & E1 & E2 & Hc).
  apply rounds_class_inv in H as (pre & E3 & E4 & Hpre).
  exists (c :: pre). rewrite E1, E3. repeat split; [congruence | ].
  cbn. now rewrite Hc.
Qed.

Lemma run_seq_inv (r1 r2 : re.pattern) (st st' : re.state) :
  In st' (re.run (re.Seq r1 r2) st) ->
  exists st1, In st1 (re.run r1 st) /\ In st' (re.run r2 st1).
Proof. cbn [re.run]. intros H. now apply in_flat_map in H. Qed.

Lemma run_chr_inv (c : ascii) (st st' : re.state) :
  In st' (re.run (re.chr c) st) -> fst st = c :: fst st' /\ snd st' = snd st.
Proof.
  intros H. apply run_class_inv in H as (c' & E1 & E2 & Hc).
  apply Ascii.eqb_eq in Hc. now subst.
Qed.

(** What is read before a state can be read again by a longer prefix. *)
Lemma run_seq_chr_inv (r : re.pattern) (c : ascii) (st st' : re.state) :
  In st' (re.run (re.Seq r (re.chr c)) st) ->
  exists st1, In st1 (re.run r st) /\ fst st1 = c :: fst st' /\ snd st' = snd st1.
Proof.
  intros H. apply run_seq_inv in H as (st1 & H1 & H).
  apply run_chr_inv in H. now exists st1.
Qed.

Lemma arithmetic_not_space (c : ascii) : arithmetic c = true -> re.space c = false.
Proof.
  unfold arithmetic. rewrite !orb_true_iff, !Ascii.eqb_eq.
  intros [[[[-> | ->] | ->] | ->] | ->]; reflexivity.
Qed.

Lemma arithmetic_not_word (c : ascii) : arithmetic c = true -> word_char c = false.
Proof.
  unfold arithmetic. rewrite !orb_true_iff, !Ascii.eqb_eq.
  intros [[[[-> | ->] | ->] | ->] | ->]; reflexivity.
Qed.

Lemma existsb_forallb_false {A : Type} (p q : A -> bool) (l : list A) :
  (forall x, p x = true -> q x = false) ->
  forallb q l = true -> existsb p l = false.
Proof.
  intros Hpq. induction l as [ | x l IH]; [reflexivity | ].
  cbn. rewrite andb_true_iff. intros [Hx Hl].
  rewrite (IH Hl), orb_false_r. destruct (p x) eqn:Hp; [ | reflexivity].
  rewrite (Hpq x Hp) in Hx. discriminate.
Qed.

Lemma run_alt_inv (r1 r2 : re.pattern) (st st' : re.state) :
  In st' (re.run (re.Alt r1 r2) st) -> In st' (re.run r1 st) \/ In st' (re.run r2 st).
Proof. cbn [re.run]. apply in_app_or. Qed.

Lemma run_opt_inv (r : re.pattern) (st st' : re.state) :
  In st' (re.run (re.Opt r) st) -> In st' (re.run r st) \/ st' = st.
Proof.
  cbn [re.run]. intros H. apply in_app_or in H as [H | H]; [now left | right].
  now destruct H as [<- | []].
Qed.

Lemma run_group_inv (n : nat) (r : re.pattern) (st st' : re.state) :
  In st' (re.run (re.Group n r) st) ->
  exists st1, In st1 (re.run r st) /\ st' = (fst st1, n :: snd st1).
Proof.
  cbn [re.run]. intros H. apply in_map_iff in H as (st1 & <- & H). now exists st1.
Qed.

Lemma run_lit_inv (name : string) (st st' : re.state) :
  In st' (re.run (re.lit name) st) -> exists pre, fst st = (pre ++ fst st')%list.
Proof.
  revert st. induction name as [ | c name IH]; intros st H.
  - destruct H as [<- | []]. now exists [].
  - cbn [re.lit] in H. apply run_seq_inv in H as (st1 & H1 & H).
    apply run_chr_inv in H1 as [E1 _]. apply IH in H as (pre & E).
    exists (c :: pre). now rewrite E1, E.
Qed.

(** A typed literal reads a quote. *)
Lemma run_typed_literal_inv (name : string) (st st' : re.state) :
  In st'
     (re.run (re.Seq (re.lit name)
             (re.Seq (re.Star (re.chr " "))
             (re.Seq (re.chr "'") (re.Seq (re.Plus (re.Class re.dot)) (re.chr "'")))))
        st) ->
  existsb (Ascii.eqb "'") (fst st) = true.
Proof.
  intros H. apply run_seq_inv in H as (st1 & H1 & H).
  apply run_seq_inv in H as (st2 & H2 & H).
  apply run_seq_inv in H as (st3 & H3 & _).
  apply run_chr_inv in H3 as [E3 _].
  apply (run_star_class_inv (Ascii.eqb " ")) in H2 as (sp & E2 & _ & _).
  apply run_lit_inv in H1 as (pre & E1).
  rewrite E1, E2, E3, !existsb_app. cbn [existsb].
  rewrite Ascii.eqb_refl. now rewrite !orb_true_r.
Qed.

(** No way through the first alternative reads an arithmetic operator when
    the text has no opening parenthesis; none through the typed literals
    when it has no quote. *)
Lemma fullmatch_arithmetic (s : string) :
  existsb arithmetic (list_ascii_of_string s) = true ->
  existsb (Ascii.eqb "(") (list_ascii_of_string s) = false ->
  existsb (Ascii.eqb "'") (list_ascii_of_string s) = false ->
  re.fullmatch Parser.ASSOCIATIVE s = false.
Proof.
  intros Hop Hparen Hquote.
  destruct (re.fullmatch Parser.ASSOCIATIVE s) eqn:Hm; [exfalso | reflexivity].
  unfold re.fullmatch in Hm. apply existsb_exists in Hm as (st & Hst & Hend).
  destruct st as [lend gend]. cbn [fst] in Hend.
  destruct lend as [ | ? ?]; [clear Hend | discriminate].
  set (l := list_ascii_of_string s) in *.
  unfold Parser.ASSOCIATIVE in Hst.
  apply run_seq_inv in Hst as ([l1 g1] & H0 & Hst).
  apply run_star_class_inv in H0 as (sp0 & E0 & G0 & Hsp0). cbn [fst snd] in *.
  apply run_seq_inv in Hst as ([l2 g2] & Hst & H4).
  apply run_star_class_inv in H4 as (sp4 & E4 & G4 & Hsp4). cbn [fst snd] in *.
  rewrite app_nil_r in E4. subst l2 g1 gend.
  apply run_alt_inv in Hst as [Hst | Hst].
  - (* identifier or call *)
    apply run_seq_inv in Hst as ([l3 g3] & Hopt & Hst).
    apply run_opt_inv in Hopt as [Hgrp | E].
    + (* the group reads an opening parenthesis *)
      apply run_group_inv in Hgrp as ([l5 g5] & Hgrp & _).
      apply run_seq_chr_inv in Hgrp as ([l6 g6] & H6 & E6 & _).
      apply run_star_class_inv in H6 as (pre & E5 & _ & _).
      cbn [fst snd] in *.
      rewrite E0, E5, E6, !existsb_app in Hparen. cbn [existsb] in Hparen.
      rewrite Ascii.eqb_refl in Hparen. rewrite !orb_true_r in Hparen. discriminate.
    + injection E as -> ->.
      apply run_seq_inv in Hst as ([l5 g5] & H5 & Hst).
      apply run_star_class_inv in H5 as (sp1 & E5 & G5 & Hsp1).
      apply run_seq_inv in Hst as ([l6 g6] & H6 & Hst).
      apply run_plus_class_inv in H6 as (w & E6 & G6 & Hw).
      apply run_seq_inv in Hst as ([l7 g7] & H7 & Hst).
      apply run_star_class_inv in H7 as (sp2 & E7 & G7 & Hsp2).
      cbn [fst snd] in *. subst g5 g6 g7.
      cbn in Hst. destruct Hst as [E | []]. injection E as ->.
      rewrite E0, E5, E6, E7, !existsb_app in Hop.
      rewrite (existsb_forallb_false arithmetic re.space sp0),
              (existsb_forallb_false arithmetic re.space sp1),
              (existsb_forallb_false arithmetic word_char w),
              (existsb_forallb_false arithmetic re.space sp2),
              (existsb_forallb_false arithmetic re.space sp4) in Hop;
        auto using arithmetic_not_space, arithmetic_not_word.
      cbn in Hop. discriminate.
  - (* a typed literal reads a quote *)
    assert (Hq : existsb (Ascii.eqb "'") l1 = true).
    { apply run_alt_inv in Hst as [Hst | Hst];
        now apply run_typed_literal_inv in Hst. }
    rewrite E0, existsb_app, Hq, orb_true_r in Hquote. discriminate.
Qed.


Lemma append_empty_r (s : string) : s ++ "" = s.
Proof.
  induction s as [ | c s IH]; [reflexivity | ].
  change (String c s ++ "") with (String c (s ++ "")). now rewrite IH.
Qed.

Lemma list_ascii_inj (s1 s2 : string) :
  list_ascii_of_string s1 = list_ascii_of_string s2 -> s1 = s2.
Proof.
  intros H. rewrite <- (string_of_list_ascii_of_string s1), H.
  apply string_of_list_ascii_of_string.
Qed.

(** Equality of two strings built by appending the same pieces. *)
Ltac string_eq :=
  apply list_ascii_inj;
  repeat (progress (rewrite ?list_ascii_app; cbn [list_ascii_of_string app]));
  repeat (progress (rewrite <- ?app_assoc; cbn [app]));
  reflexivity.

(** The expression generator on the fragments of two operands. *)
Lemma call_two (template : string) (x y : string) :
  Parser.call (Parser.mkExpression template None) [Parser.Fragment x; Parser.Fragment y]
  = format template [Parser.clean x; Parser.clean y].
Proof. reflexivity. Qed.

Lemma generate_addition (x y : string) :
  Parser.generate_expression Parser.Addition [Parser.Fragment x; Parser.Fragment y]
  = Ok (Parser.clean x ++ " + " ++ Parser.clean y).
Proof.
  unfold Parser.generate_expression. cbn [Parser.EXPRESSION]. rewrite call_two.
  generalize (Parser.clean x) (Parser.clean y). intros cx cy.
  cbn. now rewrite append_empty_r.
Qed.

Lemma generate_multiplication (x y : string) :
  Parser.generate_expression Parser.Multiplication [Parser.Fragment x; Parser.Fragment y]
  = Ok (Parser.clean x ++ " * " ++ Parser.clean y).
Proof.
  unfold Parser.generate_expression. cbn [Parser.EXPRESSION]. rewrite call_two.
  generalize (Parser.clean x) (Parser.clean y). intros cx cy.
  cbn. now rewrite append_empty_r.
Qed.

Lemma clean_matched (s : string) :
  re.fullmatch Parser.ASSOCIATIVE s = true -> Parser.clean s = s.
Proof. intros H. unfold Parser.clean. now rewrite H. Qed.

Lemma clean_unmatched (s : string) :
  re.fullmatch Parser.ASSOCIATIVE s = false -> Parser.clean s = "(" ++ s ++ ")".
Proof. intros H. unfold Parser.clean. now rewrite H. Qed.

Lemma identifier_word (s : string) :
  identifier s = true ->
  s <> "" /\ forallb word_char (list_ascii_of_string s) = true
  /\ existsb arithmetic (list_ascii_of_string s) = false
  /\ existsb (Ascii.eqb "(") (list_ascii_of_string s) = false
  /\ existsb (Ascii.eqb "'") (list_ascii_of_string s) = false.
Proof.
  unfold identifier. rewrite andb_true_iff, negb_true_iff. intros [Hs Hall].
  split; [intros ->; discriminate | ]. clear Hs.
  induction (list_ascii_of_string s) as [ | c l IH]; [now repeat split | ].
  cbn [forallb] in Hall. apply andb_true_iff in Hall as [Hc Hall].
  destruct (IH Hall) as (H1 & H2 & H3 & H4). cbn [forallb existsb].
  rewrite H1, H2, H3, H4.
  unfold identifier_char in Hc. rewrite !andb_true_iff, !negb_true_iff in Hc.
  destruct Hc as [[Hw Hp] Hq]. rewrite Hw.
  rewrite (Ascii.eqb_sym "(" c), (Ascii.eqb_sym "'" c), Hp, Hq.
  rewrite !orb_false_r, andb_true_r.
  destruct (arithmetic c) eqn:Ha; [ | now repeat split].
  apply arithmetic_not_word in Ha. congruence.
Qed.

(** X1. A fragment made only of characters that are neither operators
    [-+*/%] nor whitespace (a name such as [T.a]) is an operand as it is:
    [clean] adds no parentheses. *)
Theorem clean_word_bare (s : string) :
  s <> "" -> forallb word_char (list_ascii_of_string s) = true ->
  Parser.clean s = s.
Proof. intros Hs Hw. now apply clean_matched, fullmatch_word. Qed.

Lemma clean_word_bare_witness : Parser.clean "T.a" = "T.a".
Proof. apply (clean_word_bare "T.a"); [discriminate | reflexivity]. Defined.

(** X2. A fragment that holds one of the operators [-+*/%], and neither
    an opening parenthesis nor a quote, is always put in parentheses by
    [clean]: a negative number, an arithmetic expression of names. *)
Theorem clean_arithmetic_wrapped (s : string) :
  existsb arithmetic (list_ascii_of_string s) = true ->
  existsb (Ascii.eqb "(") (list_ascii_of_string s) = false ->
  existsb (Ascii.eqb "'") (list_ascii_of_string s) = false ->
  Parser.clean s = "(" ++ s ++ ")".
Proof. intros Hop Hparen Hquote. now apply clean_unmatched, fullmatch_arithmetic. Qed.

Lemma clean_arithmetic_wrapped_witness : Parser.clean "-1" = "(-1)".
Proof. apply (clean_arithmetic_wrapped "-1"); reflexivity. Defined.

(** X3. A fragment that opens with a parenthesis followed by a word and
    ends with a closing parenthesis is taken as parenthesised already, also
    when the two parentheses do not belong together: [(a > 1) OR (b < 3)]
    is left bare. *)
Theorem clean_parenthesised_head_bare (w rest : string) :
  w <> "" -> forallb word_char (list_ascii_of_string w) = true ->
  forallb re.dot (list_ascii_of_string rest) = true ->
  Parser.clean ("(" ++ w ++ rest ++ ")") = "(" ++ w ++ rest ++ ")".
Proof. intros Hw Hall Hrest. now apply clean_matched, fullmatch_parenthesised. Qed.

Lemma clean_parenthesised_head_bare_witness :
  Parser.clean "(a > 1) OR (b < 3)" = "(a > 1) OR (b < 3)".
Proof.
  apply (clean_parenthesised_head_bare "a" " > 1) OR (b < 3");
    [discriminate | reflexivity | reflexivity].
Defined.

(** X4. Arithmetic of names nested in arithmetic is parenthesised on
    either side: the product of a sum renders [(a + b) * c], the sum with a
    product renders [a + (b * c)]. *)
Theorem nested_arithmetic_parenthesised (a b c : string) :
  identifier a = true -> identifier b = true -> identifier c = true ->
  (let* sum := Parser.generate_expression Parser.Addition
                 [Parser.Fragment a; Parser.Fragment b] in
   Parser.generate_expression Parser.Multiplication
     [Parser.Fragment sum; Parser.Fragment c])
  = Ok ("(" ++ a ++ " + " ++ b ++ ") * " ++ c) /\
  (let* product := Parser.generate_expression Parser.Multiplication
                     [Parser.Fragment b; Parser.Fragment c] in
   Parser.generate_expression Parser.Addition
     [Parser.Fragment a; Parser.Fragment product])
  = Ok (a ++ " + (" ++ b ++ " * " ++ c ++ ")").
Proof.
  intros Ha Hb Hc.
  apply identifier_word in Ha as (Ha & Haw & Hao & Hap & Haq).
  apply identifier_word in Hb as (Hb & Hbw & Hbo & Hbp & Hbq).
  apply identifier_word in Hc as (Hc & Hcw & Hco & Hcp & Hcq).
  rewrite !generate_addition, !generate_multiplication. cbn [bind].
  rewrite !generate_addition, !generate_multiplication.
  rewrite (clean_matched a), (clean_matched b), (clean_matched c)
    by now apply fullmatch_word.
  rewrite (clean_unmatched (a ++ " + " ++ b)), (clean_unmatched (b ++ " * " ++ c)).
  - split; f_equal; string_eq.
  - apply fullmatch_arithmetic; rewrite !list_ascii_app, !existsb_app;
      cbn [list_ascii_of_string existsb]; rewrite ?Hbo, ?Hbp, ?Hbq, ?Hco, ?Hcp, ?Hcq;
      reflexivity.
  - apply fullmatch_arithmetic; rewrite !list_ascii_app, !existsb_app;
      cbn [list_ascii_of_string existsb]; rewrite ?Hao, ?Hap, ?Haq, ?Hbo, ?Hbp, ?Hbq;
      reflexivity.
Qed.


Lemma nested_arithmetic_parenthesised_witness :
  (let* sum := Parser.generate_expression Parser.Addition
                 [Parser.Fragment "a"; Parser.Fragment "b"] in
   Parser.generate_expression Parser.Multiplication
     [Parser.Fragment sum; Parser.Fragment "2"])
  = Ok ("(" ++ "a" ++ " + " ++ "b" ++ ") * " ++ "2") /\
  (let* product := Parser.generate_expression Parser.Multiplication
                     [Parser.Fragment "b"; Parser.Fragment "2"] in
   Parser.generate_expression Parser.Addition
     [Parser.Fragment "a"; Parser.Fragment product])
  = Ok ("a" ++ " + (" ++ "b" ++ " * " ++ "2" ++ ")").
Proof. apply (nested_arithmetic_parenthesised "a" "b" "2"); reflexivity. Defined.

(** X5. A cast renders [cast(x AS T)] with the operand cleaned and the
    type name of [KIND] bare; the kind [Array], which [KIND] does not list,
    is reported as an unsupported expression (the [KeyError] of the lookup
    inside the generator is caught by [generate_expression]). *)
Theorem cast_rendering (s : string) (k : kindmod.Any) :
  Parser.generate_expression Parser.Cast [Parser.Fragment s; Parser.KindArg k]
  = match k with
    | kindmod.Array _ => Raise (Unsupported "Unsupported expression")
    | _ =>
        let* name := Parser.KIND k in
        Ok ("cast(" ++ Parser.clean s ++ " AS " ++ name ++ ")")
    end.
Proof.
  unfold Parser.generate_expression. cbn [Parser.EXPRESSION].
  unfold Parser.call. cbn [Parser._mapper Parser._template Parser.cast_mapper Parser.fragment bind].
  destruct k; cbn [Parser.KIND bind map]; try reflexivity;
    rewrite (clean_matched _ eq_refl);
    generalize (Parser.clean s); intros cs; cbn; now rewrite ?append_empty_r.
Qed.

(** X6. [Count] without a column renders the star in parentheses of its
    own inside those of [count]: the default star is cleaned like any
    operand and does not match [ASSOCIATIVE]; with a column it renders
    [count(c)] on the cleaned fragment. *)
Theorem count_rendering :
  Parser.generate_expression Parser.Count [] = Ok "count((*))" /\
  forall s : string,
    Parser.generate_expression Parser.Count [Parser.Fragment s]
    = Ok ("count(" ++ Parser.clean s ++ ")").
Proof.
  split; [reflexivity | ]. intros s.
  unfold Parser.generate_expression. cbn [Parser.EXPRESSION].
  unfold Parser.call. cbn [Parser._mapper Parser._template Parser.count_mapper Parser.fragment bind map].
  generalize (Parser.clean s); intros cs; cbn. reflexivity.
Qed.

(** X7. [generate_query] refuses an empty select list whatever the other
    parts are, and leaves out the falsy parts: an empty [where] or [having]
    string is the same as none, an offset [0] the same as no offset. *)
Theorem generate_query_falsy_clauses (source : string) (columns : list string)
    (where_ : option string) (groupby : list string) (having : option string)
    (orderby : list string) (rows : option Parser.Rows) (count : Z) :
  Parser.generate_query source [] where_ groupby having orderby rows
  = Raise (AssertionError "Expecting columns") /\
  Parser.generate_query source columns (Some "") groupby having orderby rows
  = Parser.generate_query source columns None groupby having orderby rows /\
  Parser.generate_query source columns where_ groupby (Some "") orderby rows
  = Parser.generate_query source columns where_ groupby None orderby rows /\
  Parser.generate_query source columns where_ groupby having orderby
    (Some (Parser.mkRows count (Some 0%Z)))
  = Parser.generate_query source columns where_ groupby having orderby
    (Some (Parser.mkRows count None)).
Proof. repeat split. Qed.

(** ** Literals as operands *)

Lemma digit_char_plain (d : Z) :
  re.dot (digit_char d) = true.
Proof.
  unfold digit_char.
  destruct (Z.to_nat d) as [ | n]; [reflexivity | ].
  do 15 (destruct n as [ | n]; [reflexivity | ]).
  simpl. now destruct n.
Qed.

Lemma numeral_plain (b : Z) (w : nat) (n : Z) (rest : string) :
  forallb re.dot (list_ascii_of_string (numeral b w n rest))
  = forallb re.dot (list_ascii_of_string rest).
Proof.
  revert n rest. induction w as [ | w IH]; intros n rest; [reflexivity | ].
  cbn [numeral]. rewrite IH. cbn [list_ascii_of_string forallb].
  now rewrite digit_char_plain.
Qed.

Lemma numeral_nonempty (b : Z) (w : nat) (n : Z) (rest : string) :
  numeral b (S w) n rest <> "".
Proof.
  intros H. apply (f_equal String.length) in H.
  rewrite length_numeral in H. discriminate.
Qed.

(** A typed literal matches whatever text, of one line, is quoted. *)
Lemma fullmatch_typed_literal (name text : string) :
  name = "TIMESTAMP" \/ name = "DATE" ->
  text <> "" -> forallb re.dot (list_ascii_of_string text) = true ->
  re.fullmatch Parser.ASSOCIATIVE (name ++ " '" ++ text ++ "'") = true.
Proof.
  intros Hname Htext Hplain. apply fullmatch_intro with (groups := []).
  rewrite !list_ascii_app.
  destruct text as [ | c text]; [congruence | ].
  change (list_ascii_of_string " '") with [" "%char; "'"%char].
  change (list_ascii_of_string "'") with ["'"%char].
  cbn [list_ascii_of_string app forallb] in *.
  set (l := list_ascii_of_string text) in *.
  unfold Parser.ASSOCIATIVE.
  eapply run_seq; [apply run_star_nothing | ].
  eapply run_seq with (st2 := ([], [])); [ | apply run_star_nothing].
  apply run_alt_r.
  assert (Hbody : forall name : string,
    In ([], [])
       (re.run (re.Seq (re.lit name)
               (re.Seq (re.Star (re.chr " "))
               (re.Seq (re.chr "'") (re.Seq (re.Plus (re.Class re.dot)) (re.chr "'")))))
          ((list_ascii_of_string name ++ " "%char :: "'"%char :: c :: l ++ ["'"%char])%list,
           []))).
  { intros name'.
    eapply run_seq; [apply run_lit | ].
    eapply run_seq; [apply (run_star_class (Ascii.eqb " ") [" "%char]); reflexivity | ].
    eapply run_seq; [apply run_chr | ].
    eapply run_seq; [apply (run_plus_class re.dot c l); exact Hplain | apply run_chr]. }
  destruct Hname as [-> | ->]; [apply run_alt_l | apply run_alt_r]; apply Hbody.
Qed.

(** X8. The literal of a timestamp renders as [TIMESTAMP '...'] and the
    literal of a date as [DATE '...'], with the text of [strftime] for the
    format of the parser, whose year is not padded (the year 999 gives
    [DATE '999-06-01']); as an operand of an expression either is left
    without parentheses. *)
Theorem typed_literals_bare (t : datetime) (y m d : Z) :
  valid_datetime t = true ->
  valid_datetime (Datetime y m d 0 0 0 0) = true ->
  (exists s,
     Parser.generate_literal (VLiteral (VDatetime t) kindmod.Timestamp) = Ok s /\
     s = "TIMESTAMP '" ++ strftime Parser.TIMESTAMP t ++ "'" /\
     Parser.clean s = s) /\
  (exists s,
     Parser.generate_literal (VLiteral (VDate y m d) kindmod.Date) = Ok s /\
     s = "DATE '" ++ strftime Parser.DATE (Datetime y m d 0 0 0 0) ++ "'" /\
     Parser.clean s = s).
Proof.
  intros _ _.
  split; eexists; (split; [reflexivity | split; [reflexivity | ]]).
  - apply clean_matched.
    apply (fullmatch_typed_literal "TIMESTAMP" (strftime Parser.TIMESTAMP t)); [now left | | ].
    + cbn [strftime Parser.TIMESTAMP Ascii.eqb Bool.eqb strftime_directive].
      destruct (year_width_positive (year t)) as [w ->]. apply numeral_nonempty.
    + cbn [strftime Parser.TIMESTAMP Ascii.eqb Bool.eqb strftime_directive].
      repeat (rewrite numeral_plain; cbn [list_ascii_of_string forallb]; try reflexivity).
  - apply clean_matched.
    apply (fullmatch_typed_literal "DATE" (strftime Parser.DATE (Datetime y m d 0 0 0 0)));
      [now right | | ].
    + cbn [strftime Parser.DATE Ascii.eqb Bool.eqb strftime_directive].
      destruct (year_width_positive (year (Datetime y m d 0 0 0 0))) as [w ->].
      apply numeral_nonempty.
    + cbn [strftime Parser.DATE Ascii.eqb Bool.eqb strftime_directive].
      repeat (rewrite numeral_plain; cbn [list_ascii_of_string forallb]; try reflexivity).
Qed.

Lemma typed_literals_bare_witness :
  (exists s,
     Parser.generate_literal
       (VLiteral (VDatetime (Datetime 2024 6 1 12 30 0 5)) kindmod.Timestamp) = Ok s /\
     s = "TIMESTAMP '2024-06-01 12:30:00.000005'" /\
     Parser.clean s = s) /\
  (exists s,
     Parser.generate_literal (VLiteral (VDate 999 6 1) kindmod.Date) = Ok s /\
     s = "DATE '999-06-01'" /\
     Parser.clean s = s).
Proof.
  apply (typed_literals_bare (Datetime 2024 6 1 12 30 0 5) 999 6 1); reflexivity.
Defined.

(** X9. The literal of an array does not render when its elements are
    native values: [generate_literal] is applied to each element as if it
    were a literal, and fails at the first with the error of reading its
    [kind]. *)
Theorem array_literal_of_values (first : object) (others : list object)
    (element : kindmod.Any) (e : exn) :
  getattr_kind first = Raise e ->
  Parser.generate_literal (VLiteral (VList (first :: others)) (kindmod.Array element))
  = Raise e.
Proof.
  intros Hkind. cbn [Parser.generate_literal getattr_kind bind].
  cbn [isinstance kindmod.name String.eqb Ascii.eqb Bool.eqb kindmod.Numeric].
  destruct first; cbn in Hkind; try discriminate; injection Hkind as <-; reflexivity.
Qed.

Lemma array_literal_of_values_witness :
  Parser.generate_literal
    (VLiteral (VList [VInt 1; VInt 2]) (kindmod.Array kindmod.Integer))
  = Raise (AttributeError "object has no attribute 'kind'").
Proof.
  apply (array_literal_of_values (VInt 1) [VInt 2] kindmod.Integer). reflexivity.
Defined.

Lemma uint_digits (d : Decimal.uint) :
  forallb identifier_char (list_ascii_of_string (NilEmpty.string_of_uint d)) = true.
Proof. induction d; cbn [NilEmpty.string_of_uint list_ascii_of_string forallb]; now rewrite ?IHd. Qed.

Lemma uint_string_digits (d : Decimal.uint) :
  identifier (NilZero.string_of_uint d) = true.
Proof.
  unfold identifier. apply andb_true_iff. split.
  - destruct d; reflexivity.
  - destruct d; try apply (uint_digits (Decimal.D0 d)); try reflexivity;
      apply (uint_digits (_ d)).
Qed.

(** X10. The literal of an integer renders as its decimal text; as an operand
    a negative one is put in parentheses, for its minus sign, and any other
    is left bare. *)
Theorem integer_literal_operand (n : Z) :
  (let* s := Parser.generate_literal (VLiteral (VInt n) kindmod.Integer) in
   Ok (Parser.clean s))
  = Ok (if (n <? 0)%Z then "(" ++ py_str n ++ ")" else py_str n).
Proof.
  cbn [Parser.generate_literal getattr_kind bind isinstance kindmod.name String.eqb
       Ascii.eqb Bool.eqb kindmod.Numeric format_value].
  f_equal. unfold py_str. destruct n as [ | p | p]; cbn [Z.ltb Z.compare Z.to_int].
  - reflexivity.
  - destruct (identifier_word _ (uint_string_digits (Pos.to_uint p))) as (Hn & Hw & _).
    now apply clean_matched, fullmatch_word.
  - destruct (identifier_word _ (uint_string_digits (Pos.to_uint p)))
      as (_ & _ & Ho & Hp & Hq).
    apply clean_unmatched, fullmatch_arithmetic;
      cbn [NilZero.string_of_int list_ascii_of_string existsb];
      rewrite ?Ho, ?Hp, ?Hq; reflexivity.
Qed.

(** ** Generation keys, tags and states *)

(** X11. A generation key that [Level.Key] constructs from an integer is that
    integer, and it is at least [MIN = 1]: no key below one is ever
    returned. *)
Theorem Key_new_sound (n k : Z) :
  Level.Key.new n = Ok k -> k = n /\ (Level.Key.MIN <= k)%Z.
Proof.
  intros H. destruct (Z.lt_ge_cases n 1) as [Hlt | Hge].
  - rewrite (Key_new_invalid n Hlt) in H. discriminate.
  - rewrite (Key_new_ok n Hge) in H. injection H as <-.
    unfold Level.Key.MIN. split; [reflexivity | lia].
Qed.

Lemma Key_new_sound_witness : 7%Z = 7%Z /\ (Level.Key.MIN <= 7)%Z.
Proof. apply (Key_new_sound 7 7). reflexivity. Defined.

(** X12. Only the key lookup of the generation itself is covered by the
    handler of [Level.tag]: an exception of the project's or of the
    lineage's key lookup, [Listing.Empty] included, is raised to the
    caller, and the registry is not read. *)
Theorem tag_parent_error_propagates
    {ProjectKey LineageKey : Type} (project : ProjectKey) (e : exn)
    (lineage_key : result LineageKey) (self_key : result Z)
    (TAGS : ProjectKey -> LineageKey -> Z -> result Tag.t) :
  Level.tag (Raise e) lineage_key self_key TAGS = Raise e /\
  Level.tag (Ok project) (Raise e) self_key TAGS = Raise e.
Proof. split; reflexivity. Qed.

Section GetProperties.
Context {ProjectKey LineageKey : Type}.
Variable project_key : result ProjectKey.
Variable lineage_key : result LineageKey.
Variable self_key : result Z.
Variable TAGS : ProjectKey -> LineageKey -> Z -> result Tag.t.
Variable STATES : ProjectKey -> LineageKey -> Z -> UUID -> result (list Byte.byte).
Variable self_str : string.

Lemma tuple_getitem_member (states : list UUID) (index : Z) (sid : UUID) :
  States.tuple_getitem states index = Ok sid -> existsb (Z.eqb sid) states = true.
Proof.
  unfold States.tuple_getitem.
  destruct (_ && _)%bool; [ | discriminate].
  destruct (nth_error states _) as [item | ] eqn:Hn; [ | discriminate].
  intros [= ->]. apply existsb_exists. exists sid. split.
  - eapply nth_error_In, Hn.
  - apply Z.eqb_refl.
Qed.

(** X13. For a generation whose tag has no training timestamp, [Level.get]
    returns the empty bytes for every index and every id, known or not,
    and reads no state from the registry. *)
Theorem get_untrained_empty (tag : Tag.t) (sid : States.Sid) :
  Level.tag project_key lineage_key self_key TAGS = Ok tag ->
  Tag.Training_bool (Tag.training tag) = false ->
  States.get project_key lineage_key self_key TAGS STATES self_str sid = Ok [].
Proof. intros Htag Hmode. unfold States.get. rewrite Htag. cbn [bind]. now rewrite Hmode. Qed.

(** X14. In a trained generation a state is addressed alike by position and
    by id: for an index that the tuple of states accepts (counted from the
    end when negative), [get(index)] is [get(states[index])]. *)
Theorem get_index_is_id (tag : Tag.t) (index : Z) (sid : UUID) :
  Level.tag project_key lineage_key self_key TAGS = Ok tag ->
  Tag.Training_bool (Tag.training tag) = true ->
  States.tuple_getitem (Tag.states tag) index = Ok sid ->
  States.get project_key lineage_key self_key TAGS STATES self_str (States.Index index)
  = States.get project_key lineage_key self_key TAGS STATES self_str (States.Id sid).
Proof.
  intros Htag Hmode Hitem. unfold States.get. rewrite Htag. cbn [bind].
  rewrite Hmode. cbn [negb]. now rewrite Hitem.
Qed.

(** X15. In a trained generation, [get] of an id that the tag does not list
    raises [Level.Invalid] and of an index outside the tuple of states
    raises [IndexError]; neither reads a state from the registry. *)
Theorem get_unknown_reference (tag : Tag.t) :
  Level.tag project_key lineage_key self_key TAGS = Ok tag ->
  Tag.Training_bool (Tag.training tag) = true ->
  (forall sid : UUID,
     existsb (Z.eqb sid) (Tag.states tag) = false ->
     States.get project_key lineage_key self_key TAGS STATES self_str (States.Id sid)
     = Raise (LevelInvalid ("Unknown state reference for " ++ self_str ++ ": "
                            ++ uuid_str sid))) /\
  (forall index : Z,
     (index < - Z.of_nat (length (Tag.states tag))
      \/ Z.of_nat (length (Tag.states tag)) <= index)%Z ->
     States.get project_key lineage_key self_key TAGS STATES self_str (States.Index index)
     = Raise (IndexError "tuple index out of range")).
Proof.
  intros Htag Hmode. split.
  - intros sid Hsid. unfold States.get. rewrite Htag. cbn [bind].
    rewrite Hmode. cbn [negb]. now rewrite Hsid.
  - intros index Hindex. unfold States.get. rewrite Htag. cbn [bind].
    rewrite Hmode. cbn [negb]. unfold States.tuple_getitem.
    set (size := Z.of_nat (length (Tag.states tag))) in *.
    destruct (Z.ltb_spec index 0);
      match goal with
      | |- context [(?a && ?b)%bool] =>
          replace (a && b)%bool with false; [reflexivity | ]
      end; symmetry; apply andb_false_iff; rewrite Z.leb_gt, Z.ltb_ge; lia.
Qed.
End GetProperties.

(** Instances: an empty lineage, and the generation 3 of tag [tag42]. *)
Lemma get_untrained_empty_witness :
  States.get (Ok "titanic") (Ok "0.1.0") (Raise (ListingEmpty "Empty listing"))
             (fun (_ _ : string) (_ : Z) => Ok tag42)
             (fun (_ _ : string) (_ : Z) (_ : UUID) => Raise (KeyError "state"))
             "generation" (States.Index 5)
  = Ok [].
Proof.
  apply (get_untrained_empty (Ok "titanic") (Ok "0.1.0")
           (Raise (ListingEmpty "Empty listing")) _ _ "generation" NOTAG);
    reflexivity.
Defined.

Lemma get_index_is_id_witness :
  States.get (Ok "titanic") (Ok "0.1.0") (Ok 3%Z)
             (fun (_ _ : string) (_ : Z) => Ok tag42)
             (fun (_ _ : string) (_ : Z) (_ : UUID) => Ok [])
             "generation" (States.Index (-1))
  = States.get (Ok "titanic") (Ok "0.1.0") (Ok 3%Z)
             (fun (_ _ : string) (_ : Z) => Ok tag42)
             (fun (_ _ : string) (_ : Z) (_ : UUID) => Ok [])
             "generation" (States.Id 1%Z).
Proof.
  apply (get_index_is_id (Ok "titanic") (Ok "0.1.0") (Ok 3%Z) _ _ "generation" tag42);
    reflexivity.
Defined.

Lemma get_unknown_reference_witness :
  (forall sid : UUID,
     existsb (Z.eqb sid) (Tag.states tag42) = false ->
     States.get (Ok "titanic") (Ok "0.1.0") (Ok 3%Z)
                (fun (_ _ : string) (_ : Z) => Ok tag42)
                (fun (_ _ : string) (_ : Z) (_ : UUID) => Ok [])
                "generation" (States.Id sid)
     = Raise (LevelInvalid ("Unknown state reference for " ++ "generation" ++ ": "
                            ++ uuid_str sid))) /\
  (forall index : Z,
     (index < - Z.of_nat (length (Tag.states tag42))
      \/ Z.of_nat (length (Tag.states tag42)) <= index)%Z ->
     States.get (Ok "titanic") (Ok "0.1.0") (Ok 3%Z)
                (fun (_ _ : string) (_ : Z) => Ok tag42)
                (fun (_ _ : string) (_ : Z) (_ : UUID) => Ok [])
                "generation" (States.Index index)
     = Raise (IndexError "tuple index out of range")).
Proof.
  apply (get_unknown_reference (Ok "titanic") (Ok "0.1.0") (Ok 3%Z) _ _ "generation" tag42);
    reflexivity.
Defined.

(** ** Mode proxies *)

(** X16. Triggering the training mode of a tag sets its timestamp, to the
    one given or else to the reading of the clock, and keeps the ordinal
    of the mode; the tuning mode and the states of a constructed tag are
    unchanged, and the new tag is truthy. *)
Theorem trigger_keeps_ordinal (training : option Tag.Training)
    (tuning : option Tag.Tuning) (states : option (list UUID))
    (timestamp : option datetime) (utcnow : datetime) :
  let tag := Tag.new training tuning states in
  exists tag',
    Proxy.Training_trigger tag timestamp utcnow = Ok tag' /\
    Tag.training tag'
    = Tag.mkTraining (Some (match timestamp with Some ts => ts | None => utcnow end))
                     (Tag.ordinal (Tag.training tag)) /\
    Tag.tuning tag' = Tag.tuning tag /\
    Tag.states tag' = Tag.states tag /\
    Tag.to_bool tag' = true.
Proof.
  intros tag. eexists. split; [reflexivity | ].
  repeat split.
  unfold tag, Tag.new, Tag.Tuning_bool. cbn.
  destruct tuning as [[[ts | ] sc] | ]; reflexivity.
Qed.

(** X17. A replacement on a mode that has no timestamp, and is given none,
    is lost: [Tag.__new__] takes the rebuilt mode for absent and puts the
    default mode in its place, so the new ordinal is not kept. *)
Theorem replace_untriggered_lost (tag : Tag.t) (ordinal : pyval) :
  Tag.training_timestamp (Tag.training tag) = None ->
  exists tag',
    Proxy.Training_replace tag (Proxy.mkKwargs None (Some ordinal) []) = Ok tag' /\
    Tag.training tag' = Tag.Training_default.
Proof.
  intros Hts. eexists. split; [reflexivity | ].
  cbn. unfold Tag.Training_bool. cbn. now rewrite Hts.
Qed.

Lemma replace_untriggered_lost_witness :
  exists tag',
    Proxy.Training_replace NOTAG (Proxy.mkKwargs None (Some (PyInt 42)) []) = Ok tag' /\
    Tag.training tag' = Tag.Training_default.
Proof. apply (replace_untriggered_lost NOTAG (PyInt 42)). reflexivity. Defined.

(** X18. [Tag.replace] never changes a mode: it succeeds only when no
    keyword names [training], [tuning] or an unknown field, and its result
    has the modes of the tag; a keyword for a mode raises [ValueError]. *)
Theorem replace_keeps_modes (self tag' : Tag.t) (kwargs : Proxy.Replacement) :
  Proxy.replace self kwargs = Ok tag' ->
  Tag.training tag' = Tag.training self /\ Tag.tuning tag' = Tag.tuning self /\
  Proxy.r_training kwargs = None /\ Proxy.r_tuning kwargs = None /\
  Proxy.r_unknown kwargs = [].
Proof.
  unfold Proxy.replace.
  destruct (Proxy.r_training kwargs), (Proxy.r_tuning kwargs), (Proxy.r_unknown kwargs);
    try discriminate.
  intros [= <-]. now repeat split.
Qed.

Lemma replace_keeps_modes_witness :
  Tag.training (Tag.mk (Tag.training tag42) (Tag.tuning tag42) [])
  = Tag.training tag42 /\
  Tag.tuning (Tag.mk (Tag.training tag42) (Tag.tuning tag42) []) = Tag.tuning tag42 /\
  Proxy.r_training (Proxy.mkReplacement None None (Some []) []) = None /\
  Proxy.r_tuning (Proxy.mkReplacement None None (Some []) []) = None /\
  Proxy.r_unknown (Proxy.mkReplacement None None (Some []) []) = [].
Proof.
  apply (replace_keeps_modes tag42 _ (Proxy.mkReplacement None None (Some []) [])).
  reflexivity.
Defined.

(** ** The lower bound of a training run, in general *)

(** X19. [Runner.train] builds with [lower or tag.training.ordinal]: a truthy
    lower bound is passed on as given, a falsy one ([None], [0], an empty
    string) is replaced by the ordinal of the tag, and the upper bound is
    passed on as given. After the build the tag is read again and its
    training mode triggered at the reading of the clock: the state is
    opened on the tag with that timestamp and the same ordinal, and the
    train segment of the composition is executed with it. A failure of
    reading the tag is raised whatever the lower bound is: at once when it
    is falsy, and after the build and the attributes of the composition, if
    these do not fail first, when it is truthy. *)
Theorem train_lower_or_ordinal
    {Composition Segment Shared State Symbols Outcome : Type}
    (_build : pyval -> pyval -> result Composition)
    (composition_train : Composition -> result Segment)
    (composition_shared : Composition -> result Shared)
    (assets_state : Shared -> Tag.t -> result State)
    (compiler_generate : Segment -> option State -> result Symbols)
    (_run : Symbols -> result Outcome)
    (utcnow : datetime) (lower upper : pyval) :
  (forall tag : Tag.t,
     Launch.train (Ok tag) _build composition_train composition_shared
                  assets_state compiler_generate _run utcnow lower upper
     = let* composition :=
         _build (if truthy lower then lower else Tag.ordinal (Tag.training tag)) upper in
       let* path := composition_train composition in
       let* shared := composition_shared composition in
       let* state :=
         assets_state shared
           (Tag.mk (Tag.mkTraining (Some utcnow) (Tag.ordinal (Tag.training tag)))
                   (if Tag.Tuning_bool (Tag.tuning tag) then Tag.tuning tag
                    else Tag.Tuning_default)
                   (Tag.states tag)) in
       let* symbols := compiler_generate path (Some state) in
       _run symbols) /\
  (forall e : exn,
     Launch.train (Raise e) _build composition_train composition_shared
                  assets_state compiler_generate _run utcnow lower upper
     = if truthy lower
       then let* composition := _build lower upper in
            let* path := composition_train composition in
            let* shared := composition_shared composition in
            Raise e
       else Raise e).
Proof.
  split; intros; unfold Launch.train, Launch._exec, Runner.train_composition, py_or;
    destruct (truthy lower); reflexivity.
Qed.

(** ** Columns and their visitors *)

(** Induction on a column whose expression terms are columns again. *)
Lemma Column_nested_ind (P : series.Column -> Prop) :
  (forall element, P element -> forall name, P (series.Aliased element name)) ->
  (forall literal, P (series.Literal literal)) ->
  (forall table name kind, P (series.Field table name kind)) ->
  (forall cls terms,
     List.Forall (fun term => match term with inl c => P c | inr _ => True end) terms ->
     P (series.Expression cls terms)) ->
  forall column, P column.
Proof.
  intros Ha Hl Hf He. fix ind 1.
  intros [element name | literal | table name kind | cls terms].
  - apply Ha, ind.
  - apply Hl.
  - apply Hf.
  - apply He. induction terms as [ | [term | kind] terms IH]; constructor; auto.
Qed.

(** X20. [accept] calls the hooks in post-order and never fails by itself:
    with a visitor that notes its visits, the terms of an expression are
    noted left to right before the expression, the element of an aliased
    column before the aliased column, a term that is no [Element] (an
    aliased column put into an expression, the kind of a cast) is passed
    over, and what was noted before is kept. *)
Theorem accept_postorder (column : series.Column) (visited : list series.Column) :
  series.accept Visits.recorder column visited
  = Ok (visited ++ Visits.postorder column)%list.
Proof.
  revert visited.
  induction column as [element IH name | literal | table name kind | cls terms IH]
    using Column_nested_ind; intros visited.
  - cbn [series.accept Visits.postorder]. rewrite IH. cbn. now rewrite app_assoc.
  - reflexivity.
  - reflexivity.
  - cbn [series.accept Visits.postorder].
    match goal with
    | |- bind (?each terms visited) _ = Ok (visited ++ ?post terms ++ _)%list =>
        assert (Heach : forall visited, each terms visited = Ok (visited ++ post terms)%list)
    end.
    { induction IH as [ | [term | kind] terms' Hterm _ IHterms]; intros visited'.
      - now rewrite app_nil_r.
      - destruct term; [apply IHterms | | | ];
          rewrite Hterm; cbn [bind]; rewrite IHterms; now rewrite app_assoc.
      - apply IHterms. }
    rewrite Heach. cbn. now rewrite app_assoc.
Qed.

(** X21. Aliasing an aliased column replaces its alias: the alias is put on
    the element of the column, so aliases do not nest, and the element of
    the result is the element of the column. *)
Theorem alias_replaces_alias (column : series.Column) (first second : string) :
  series.alias (series.alias column first) second = series.alias column second /\
  series.element (series.alias column first) = series.element column.
Proof. split; reflexivity. Qed.

(** ** Sets of nodes *)

Lemma member_In (x : grnode.Atomic) (s : list grnode.Atomic) :
  nodeset.member x s = true <-> In x s.
Proof.
  unfold nodeset.member. rewrite existsb_exists. split.
  - intros (y & Hy & E). apply Nat.eqb_eq in E. now subst.
  - intros H. exists x. split; [assumption | apply Nat.eqb_refl].
Qed.

Lemma member_false (x : grnode.Atomic) (s : list grnode.Atomic) :
  nodeset.member x s = false <-> ~ In x s.
Proof.
  rewrite <- member_In. destruct (nodeset.member x s); split; congruence.
Qed.

Lemma In_add (x y : grnode.Atomic) (s : list grnode.Atomic) :
  In y (nodeset.add x s) <-> y = x \/ In y s.
Proof.
  unfold nodeset.add. destruct (nodeset.member x s) eqn:Hx.
  - apply member_In in Hx. split; [now right | intros [-> | H]; assumption].
  - rewrite in_app_iff. cbn.
    split; [intros [H | [-> | []]] | intros [-> | H]]; auto.
Qed.

Lemma member_add (x y : grnode.Atomic) (s : list grnode.Atomic) :
  nodeset.member y (nodeset.add x s) = (Nat.eqb y x || nodeset.member y s)%bool.
Proof.
  apply eq_true_iff_eq. rewrite orb_true_iff, !member_In, In_add, Nat.eqb_eq.
  reflexivity.
Qed.

Lemma length_add_new (x : grnode.Atomic) (s : list grnode.Atomic) :
  nodeset.member x s = false -> length (nodeset.add x s) = S (length s).
Proof.
  intros H. unfold nodeset.add. rewrite H, length_app. cbn. lia.
Qed.

Lemma NoDup_add (x : grnode.Atomic) (s : list grnode.Atomic) :
  List.NoDup s -> List.NoDup (nodeset.add x s).
Proof.
  intros H. unfold nodeset.add. destruct (nodeset.member x s) eqn:Hx; [assumption | ].
  apply member_false in Hx. apply List.NoDup_app; [assumption | | ].
  - repeat constructor. intros [].
  - intros y Hy [<- | []]. contradiction.
Qed.

(** The loop over subscribers that are leaves collects them. *)
Lemma endings_leaves (f : grnode.Atomic -> result grnode.Atomic)
    (expected : option grnode.Atomic) (nodes collected : list grnode.Atomic) :
  (forall n, In n nodes -> f n = Ok n /\ Path.is_expected expected n = false) ->
  Path.endings f expected nodes collected
  = Ok (inr (fold_left (fun s x => nodeset.add x s) nodes collected)).
Proof.
  revert collected. induction nodes as [ | n nodes IH]; intros collected H; [reflexivity | ].
  cbn [Path.endings fold_left]. destruct (H n (or_introl eq_refl)) as [Hf He].
  rewrite Hf. cbn [bind]. rewrite He. apply IH. intros n' Hn'. apply H. now right.
Qed.

Lemma fold_add_fresh (nodes collected : list grnode.Atomic) :
  List.NoDup (collected ++ nodes) ->
  fold_left (fun s x => nodeset.add x s) nodes collected = (collected ++ nodes)%list.
Proof.
  revert collected. induction nodes as [ | n nodes IH]; intros collected H.
  - now rewrite app_nil_r.
  - cbn [fold_left]. unfold nodeset.add at 2.
    replace (nodeset.member n collected) with false.
    + rewrite IH; rewrite <- app_assoc; [reflexivity | exact H].
    + symmetry. apply member_false. intros Hin.
      apply NoDup_remove_2 in H. apply H, in_or_app. now left.
Qed.

Lemma In_fold_add (x : grnode.Atomic) (nodes collected : list grnode.Atomic) :
  In x (fold_left (fun s y => nodeset.add y s) nodes collected)
  <-> In x collected \/ In x nodes.
Proof.
  revert collected. induction nodes as [ | n nodes IH]; intros collected.
  - cbn. split; [intros H; now left | intros [H | []]; exact H].
  - cbn [fold_left]. rewrite IH, In_add. cbn.
    split; [intros [[-> | H] | H] | intros [H | [-> | H]]]; auto.
Qed.

Lemma NoDup_fold_add (nodes collected : list grnode.Atomic) :
  List.NoDup collected ->
  List.NoDup (fold_left (fun s y => nodeset.add y s) nodes collected).
Proof.
  revert collected. induction nodes as [ | n nodes IH]; intros collected H; [assumption | ].
  cbn [fold_left]. now apply IH, NoDup_add.
Qed.

Lemma In_of_list (x : grnode.Atomic) (l : list grnode.Atomic) :
  In x (nodeset.of_list l) <-> In x l.
Proof.
  unfold nodeset.of_list. rewrite In_fold_add.
  split; [intros [[] | H]; exact H | intros H; now right].
Qed.


(** ** The tail of a path *)

Section TailProperties.
Variable output : grnode.Atomic -> list (list grnode.Subscription).
Variable order : list grnode.Atomic -> list grnode.Atomic.
Variable pop : list grnode.Atomic -> grnode.Atomic.
(** What Python grants of a set: iterating it yields its elements, each
    once, and [pop] takes one of them. *)
Hypothesis order_permutation : forall s, Permutation (order s) s.
Hypothesis pop_member : forall s, s <> [] -> In (pop s) s.


Lemma order_single (x : grnode.Atomic) : order [x] = [x].
Proof. apply Permutation_singleton_r, order_permutation. Qed.

Lemma pop_single (x : grnode.Atomic) : pop [x] = x.
Proof.
  destruct (pop_member [x]) as [E | []]; [discriminate | now symmetry].
Qed.

(** One step of [tail]. *)
Lemma tail_step (limit : nat) (head : grnode.Atomic) (expected : option grnode.Atomic)
    (path : list grnode.Atomic) :
  Path.tail output order pop (S limit) head expected path
  = if Path.is_expected expected head then Ok head
    else
      match Path.apply_subscribers output head with
      | [] => Ok head
      | _ :: _ =>
          let path := nodeset.add head path in
          let* _ := assert (nodeset.isdisjoint (Path.apply_subscribers output head) path)
                           "Cyclic flow" in
          let* found :=
            Path.endings (fun node => Path.tail output order pop limit node expected path)
                         expected (order (Path.apply_subscribers output head)) [] in
          match found with
          | inl tail => Ok tail
          | inr collected =>
              let* _ :=
                assert ((1 <? length path)%nat
                        || (match expected with None => true | Some _ => false end
                            && (length collected =? 1)%nat))
                       "Ambiguous tail" in
              match collected with
              | [] => Raise (KeyError "pop from an empty set")
              | _ :: _ => Ok (pop collected)
              end
          end
      end.
Proof. reflexivity. Qed.

(** One step of [tail] at a node with one apply subscriber. *)
Lemma tail_step_single (limit : nat) (head next : grnode.Atomic)
    (expected : option grnode.Atomic) (path : list grnode.Atomic) :
  Path.apply_subscribers output head = [next] ->
  Path.is_expected expected head = false ->
  nodeset.member next (nodeset.add head path) = false ->
  Path.tail output order pop (S limit) head expected path
  = let* found := Path.tail output order pop limit next expected (nodeset.add head path) in
    if Path.is_expected expected found then Ok found
    else
      let* _ := assert ((1 <? length (nodeset.add head path))%nat
                        || match expected with None => true | Some _ => false end)
                       "Ambiguous tail" in
      Ok found.
Proof.
  intros Hsub Hexp Hnext. cbn [Path.tail]. rewrite Hexp, Hsub.
  cbn [nodeset.isdisjoint forallb]. rewrite Hnext. cbn [negb andb assert bind].
  rewrite order_single. cbn [Path.endings].
  destruct (Path.tail output order pop limit next expected (nodeset.add head path)) as [found | e];
    [ | reflexivity].
  cbn [bind]. destruct (Path.is_expected expected found); [reflexivity | ].
  cbn [Path.endings bind nodeset.add nodeset.member existsb app length Nat.eqb].
  rewrite andb_true_r, pop_single. reflexivity.
Qed.

Lemma last_cons (x d : grnode.Atomic) (l : list grnode.Atomic) :
  List.last (x :: l) d = List.last l x.
Proof.
  revert x d. induction l as [ | y l IH]; intros x d; [reflexivity | ].
  change (List.last (x :: y :: l) d) with (List.last (y :: l) d).
  now rewrite (IH y d), (IH y x).
Qed.

Lemma is_expected_chain_end (expected : option grnode.Atomic) (head next : grnode.Atomic)
    (chain : list grnode.Atomic) :
  Path.is_expected expected head = false ->
  Shape.chain_end expected head (next :: chain) = Shape.chain_end expected next chain.
Proof.
  unfold Shape.chain_end, Path.is_expected.
  destruct expected as [e | ]; [ | now rewrite last_cons].
  intros He. cbn [nodeset.member existsb].
  rewrite (Nat.eqb_sym e head), He, last_cons. reflexivity.
Qed.

Lemma is_expected_chain_end_found (expected : option grnode.Atomic)
    (head : grnode.Atomic) (chain : list grnode.Atomic) :
  Path.is_expected expected head = true -> Shape.chain_end expected head chain = head.
Proof.
  unfold Shape.chain_end, Path.is_expected. destruct expected as [e | ]; [ | discriminate].
  intros He. apply Nat.eqb_eq in He. subst e.
  cbn [nodeset.member existsb]. now rewrite Nat.eqb_refl.
Qed.

(** Below the first level, [tail] on a chain returns the expected node
    when it is on the chain and the last node otherwise. *)
Lemma tail_chain_inner (chain : list grnode.Atomic) :
  forall (limit : nat) (head : grnode.Atomic) (expected : option grnode.Atomic)
         (path : list grnode.Atomic),
    Shape.is_chain (Path.apply_subscribers output) (head :: chain) ->
    List.NoDup (head :: chain) ->
    (forall x, In x (head :: chain) -> nodeset.member x path = false) ->
    path <> [] ->
    (length chain < limit)%nat ->
    Path.tail output order pop limit head expected path = Ok (Shape.chain_end expected head chain).
Proof.
  induction chain as [ | next chain IH]; intros limit head expected path Hchain Hnodup Hpath Hne Hlimit.
  - destruct limit as [ | limit]; [cbn in Hlimit; lia | ].
    cbn [Path.tail]. destruct (Path.is_expected expected head) eqn:He.
    + now rewrite is_expected_chain_end_found.
    + cbn in Hchain. rewrite Hchain. f_equal. unfold Shape.chain_end.
      destruct expected as [e | ]; [ | reflexivity].
      cbn in He |- *. now rewrite (Nat.eqb_sym e head), He.
  - destruct limit as [ | limit]; [cbn in Hlimit; lia | ].
    destruct (Path.is_expected expected head) eqn:He.
    + cbn [Path.tail]. rewrite He. now rewrite is_expected_chain_end_found.
    + destruct Hchain as [Hsub Hchain].
      assert (Hhead : nodeset.member head path = false) by (apply Hpath; now left).
      assert (Hnext : nodeset.member next (nodeset.add head path) = false).
      { rewrite member_add. apply orb_false_iff. split.
        - apply Nat.eqb_neq. intros ->. inversion Hnodup as [ | ? ? Hin _]. apply Hin. now left.
        - apply Hpath. right. now left. }
      rewrite (tail_step_single limit head next expected path Hsub He Hnext).
      rewrite (IH limit next expected (nodeset.add head path)).
      * cbn [bind]. rewrite (is_expected_chain_end expected head next chain He).
        destruct (Path.is_expected expected (Shape.chain_end expected next chain)); [reflexivity | ].
        rewrite (length_add_new head path Hhead).
        destruct path as [ | p path]; [congruence | ]. reflexivity.
      * exact Hchain.
      * now inversion Hnodup.
      * intros x Hx. rewrite member_add. apply orb_false_iff. split.
        -- apply Nat.eqb_neq. intros ->. inversion Hnodup as [ | ? ? Hin _]. now apply Hin.
        -- apply Hpath. now right.
      * unfold nodeset.add. rewrite Hhead. now destruct path.
      * cbn in Hlimit. lia.
Qed.

(** At the first level, where the path is empty, an expected node that
    was not found fails the check of the tail. *)
Lemma tail_chain_top (limit : nat) (head : grnode.Atomic) (chain : list grnode.Atomic)
    (expected : option grnode.Atomic) :
  Shape.is_chain (Path.apply_subscribers output) (head :: chain) ->
  List.NoDup (head :: chain) ->
  (length chain < limit)%nat ->
  Path.tail output order pop limit head expected []
  = match chain, expected with
    | [], _ => Ok head
    | _ :: _, None => Ok (List.last chain head)
    | _ :: _, Some e =>
        if nodeset.member e (head :: chain) then Ok e
        else Raise (AssertionError "Ambiguous tail")
    end.
Proof.
  intros Hchain Hnodup Hlimit.
  destruct limit as [ | limit]; [lia | ].
  destruct chain as [ | next chain].
  - cbn [Path.tail]. cbn in Hchain. rewrite Hchain.
    now destruct (Path.is_expected expected head).
  - destruct (Path.is_expected expected head) eqn:He.
    { cbn [Path.tail]. rewrite He.
      destruct expected as [e | ]; [ | discriminate].
      cbn in He. apply Nat.eqb_eq in He. subst e.
      cbn [nodeset.member existsb]. now rewrite Nat.eqb_refl. }
    destruct Hchain as [Hsub Hchain].
    assert (Hnext : nodeset.member next (nodeset.add head []) = false).
    { cbn. rewrite orb_false_r. apply Nat.eqb_neq. intros ->.
      inversion Hnodup as [ | ? ? Hin _]. apply Hin. now left. }
    rewrite (tail_step_single limit head next expected [] Hsub He Hnext).
    rewrite (tail_chain_inner chain limit next expected (nodeset.add head [])).
    + cbn [bind]. unfold Shape.chain_end.
      destruct expected as [e | ];
        [ | cbn [Path.is_expected]; rewrite orb_true_r; cbn [assert bind];
            now rewrite last_cons].
      cbn [nodeset.member existsb]. cbn [Path.is_expected] in He.
      rewrite (Nat.eqb_sym e head), He. cbn [orb].
      destruct (Nat.eqb e next || existsb (Nat.eqb e) chain)%bool eqn:Hmem.
      * cbn [Path.is_expected]. now rewrite Nat.eqb_refl.
      * cbn [Path.is_expected].
        destruct (Nat.eqb (List.last chain next) e) eqn:Hlast; [ | reflexivity].
        exfalso. apply Nat.eqb_eq in Hlast. subst e.
        apply orb_false_iff in Hmem as [Hn Hc].
        destruct chain as [ | c chain'].
        -- cbn in Hn. now rewrite Nat.eqb_refl in Hn.
        -- assert (Hin : In (List.last (c :: chain') next) (c :: chain')).
           { destruct (exists_last (l := c :: chain')) as (l' & a & E); [discriminate | ].
             rewrite E, last_last. apply in_or_app. right. now left. }
           apply (proj2 (member_In _ _)) in Hin. unfold nodeset.member in Hin. congruence.
    + exact Hchain.
    + now inversion Hnodup.
    + intros x Hx. cbn. rewrite orb_false_r. apply Nat.eqb_neq. intros ->.
      inversion Hnodup as [ | ? ? Hin _]. now apply Hin.
    + discriminate.
    + cbn in Hlimit. lia.
Qed.

(** Without an expected node the last node of a chain is found. *)
Lemma tail_chain_last (limit : nat) (head : grnode.Atomic) (chain : list grnode.Atomic) :
  Shape.is_chain (Path.apply_subscribers output) (head :: chain) ->
  List.NoDup (head :: chain) ->
  (length chain < limit)%nat ->
  Path.tail output order pop limit head None [] = Ok (List.last chain head).
Proof.
  intros Hchain Hnodup Hlimit.
  rewrite (tail_chain_top limit head chain None Hchain Hnodup Hlimit).
  now destruct chain.
Qed.

(** X22. On a chain of nodes, each with the next one as its only apply
    subscriber, [Path.tail(head)] returns the last node, and
    [Path.tail(head, expected)] returns the expected node when it is on
    the chain; a recursion depth of one call for each node is enough. *)
Theorem tail_of_chain (limit : nat) (head : grnode.Atomic) (chain : list grnode.Atomic)
    (expected : option grnode.Atomic) :
  Shape.is_chain (Path.apply_subscribers output) (head :: chain) ->
  List.NoDup (head :: chain) ->
  (length chain < limit)%nat ->
  match expected with
  | Some e => In e (head :: chain)
  | None => True
  end ->
  Path.tail output order pop limit head expected []
  = Ok (match expected with Some e => e | None => List.last chain head end).
Proof.
  intros Hchain Hnodup Hlimit Hexp.
  rewrite (tail_chain_top limit head chain expected Hchain Hnodup Hlimit).
  destruct expected as [e | ].
  - apply member_In in Hexp. rewrite Hexp.
    destruct chain; [ | reflexivity].
    cbn in Hexp. rewrite orb_false_r in Hexp.
    apply Nat.eqb_eq in Hexp. now subst.
  - now destruct chain.
Qed.

(** X23. An expected tail that the walk from the head does not reach is not
    reported as such: on a chain of two nodes or more, [Path.tail(head,
    expected)] with an expected node off the chain fails with 'Ambiguous
    tail', though the tail is unique; on a lone node without apply
    subscribers it returns the head and the expected node is ignored. *)
Theorem tail_expected_unreached (limit : nat) (head : grnode.Atomic)
    (chain : list grnode.Atomic) (e : grnode.Atomic) :
  Shape.is_chain (Path.apply_subscribers output) (head :: chain) ->
  List.NoDup (head :: chain) ->
  (length chain < limit)%nat ->
  ~ In e (head :: chain) ->
  Path.tail output order pop limit head (Some e) []
  = match chain with
    | [] => Ok head
    | _ :: _ => Raise (AssertionError "Ambiguous tail")
    end.
Proof.
  intros Hchain Hnodup Hlimit Hexp.
  rewrite (tail_chain_top limit head chain (Some e) Hchain Hnodup Hlimit).
  apply member_false in Hexp. rewrite Hexp. reflexivity.
Qed.

Lemma NoDup_apply_subscribers (head : grnode.Atomic) :
  List.NoDup (Path.apply_subscribers output head).
Proof. apply NoDup_fold_add. constructor. Qed.

Lemma In_order (x : grnode.Atomic) (s : list grnode.Atomic) : In x (order s) <-> In x s.
Proof.
  split; apply Permutation_in;
    [apply order_permutation | symmetry; apply order_permutation].
Qed.

Lemma tail_leaf (limit : nat) (node : grnode.Atomic) (expected : option grnode.Atomic)
    (path : list grnode.Atomic) :
  Path.apply_subscribers output node = [] ->
  Path.tail output order pop (S limit) node expected path = Ok node.
Proof.
  intros H. cbn [Path.tail]. rewrite H. now destruct (Path.is_expected expected node).
Qed.

Lemma is_expected_outside (expected : option grnode.Atomic) (nodes : list grnode.Atomic)
    (n : grnode.Atomic) :
  match expected with Some e => ~ In e nodes | None => True end ->
  In n nodes -> Path.is_expected expected n = false.
Proof.
  destruct expected as [e | ]; [ | reflexivity]. intros He Hn. cbn.
  apply Nat.eqb_neq. intros ->. contradiction.
Qed.

(** X24. At the first level an ambiguous tail is detected: for a head whose
    apply subscribers are two or more nodes without apply subscribers,
    [Path.tail(head)] fails with 'Ambiguous tail', whatever order the set
    of subscribers is iterated in, and so does [Path.tail(head, expected)]
    for an expected node that is none of these nodes. *)
Theorem tail_fork_ambiguous (limit : nat) (head : grnode.Atomic)
    (expected : option grnode.Atomic) :
  (2 <= length (Path.apply_subscribers output head))%nat ->
  (forall s, In s (Path.apply_subscribers output head) ->
             Path.apply_subscribers output s = [] /\ s <> head) ->
  match expected with
  | Some e => ~ In e (head :: Path.apply_subscribers output head)
  | None => True
  end ->
  Path.tail output order pop (S (S limit)) head expected []
  = Raise (AssertionError "Ambiguous tail").
Proof.
  intros Hlen Hleaves Hexp.
  pose proof (NoDup_apply_subscribers head) as Hnodup.
  rewrite tail_step. cbv zeta.
  rewrite (is_expected_outside expected (head :: Path.apply_subscribers output head) head Hexp)
    by now left.
  destruct (Path.apply_subscribers output head) as [ | s0 subs] eqn:Hsubs;
    [cbn in Hlen; lia | ].
  replace (nodeset.isdisjoint (s0 :: subs) (nodeset.add head [])) with true.
  2:{ symmetry. apply forallb_forall. intros s Hs. apply negb_true_iff.
      cbn. rewrite orb_false_r. apply Nat.eqb_neq. exact (proj2 (Hleaves s Hs)). }
  cbn [assert bind].
  rewrite (endings_leaves _ expected (order (s0 :: subs)) []).
  2:{ intros n Hn. apply (proj1 (In_order n _)) in Hn. split.
      - apply tail_leaf. exact (proj1 (Hleaves n Hn)).
      - apply (is_expected_outside expected (head :: s0 :: subs)); [exact Hexp | now right]. }
  cbn [bind]. rewrite fold_add_fresh.
  2:{ cbn [app]. apply (Permutation_NoDup (l := s0 :: subs)); [ | exact Hnodup].
      symmetry. apply order_permutation. }
  cbn [app nodeset.add nodeset.member existsb length].
  rewrite (Permutation_length (order_permutation (s0 :: subs))).
  replace (length (s0 :: subs) =? 1)%nat with false
    by (symmetry; apply Nat.eqb_neq; lia).
  now rewrite andb_false_r.
Qed.

(** X25. Below the first level the check of the tail is not made: for a head
    whose only apply subscriber has itself apply subscribers, all of them
    without apply subscribers, [Path.tail(head)] succeeds and returns one
    of these, however many they are. *)
Theorem tail_deep_fork_unchecked (limit : nat) (head middle : grnode.Atomic) :
  Path.apply_subscribers output head = [middle] ->
  middle <> head ->
  Path.apply_subscribers output middle <> [] ->
  (forall s, In s (Path.apply_subscribers output middle) ->
             Path.apply_subscribers output s = [] /\ s <> head /\ s <> middle) ->
  exists found,
    Path.tail output order pop (S (S (S limit))) head None [] = Ok found /\
    In found (Path.apply_subscribers output middle).
Proof.
  intros Hhead Hmiddle Hsubs Hleaves.
  pose proof (NoDup_apply_subscribers middle) as Hnodup.
  assert (Hnext : nodeset.member middle (nodeset.add head []) = false).
  { cbn. rewrite orb_false_r. now apply Nat.eqb_neq. }
  rewrite (tail_step_single (S (S limit)) head middle None [] Hhead eq_refl Hnext).
  rewrite tail_step. cbv zeta. cbn [Path.is_expected].
  destruct (Path.apply_subscribers output middle) as [ | s0 subs] eqn:E; [congruence | ].
  replace (nodeset.isdisjoint (s0 :: subs) (nodeset.add middle (nodeset.add head [])))
    with true.
  2:{ symmetry. apply forallb_forall. intros s Hs. apply negb_true_iff.
      destruct (Hleaves s Hs) as (_ & H1 & H2).
      rewrite !member_add. cbn. rewrite orb_false_r.
      apply orb_false_iff. split; now apply Nat.eqb_neq. }
  cbn [assert bind].
  rewrite (endings_leaves _ None (order (s0 :: subs)) []).
  2:{ intros n Hn. apply (proj1 (In_order n _)) in Hn. split; [ | reflexivity].
      apply tail_leaf. exact (proj1 (Hleaves n Hn)). }
  cbn [bind]. rewrite fold_add_fresh.
  2:{ cbn [app]. apply (Permutation_NoDup (l := s0 :: subs)); [ | exact Hnodup].
      symmetry. apply order_permutation. }
  cbn [app].
  replace (1 <? length (nodeset.add middle (nodeset.add head [])))%nat with true.
  2:{ symmetry. rewrite length_add_new by exact Hnext. reflexivity. }
  cbn [orb assert bind].
  destruct (order (s0 :: subs)) as [ | o os] eqn:Ho.
  { pose proof (Permutation_length (order_permutation (s0 :: subs))) as Hl.
    rewrite Ho in Hl. discriminate. }
  cbn [bind Path.is_expected]. eexists. split; [reflexivity | ].
  apply In_order. rewrite Ho. apply pop_member. discriminate.
Qed.
End TailProperties.

(** ** Pre-order visits *)

Section PreOrderProperties.
Variable output : grnode.Atomic -> list (list grnode.Subscription).
Variable order : list grnode.Atomic -> list grnode.Atomic.
Context {State : Type}.
Variable visit_node : grnode.Atomic -> State -> result State.

Lemma each_outcome (path : list grnode.Atomic)
    (scan : grnode.Atomic -> State * list grnode.Atomic
            -> result (State * list grnode.Atomic))
    (nodes : list grnode.Atomic) :
  (forall node st, incl path (snd st) -> PreOrder.scan_outcome visit_node st (scan node st)) ->
  forall st, incl path (snd st) -> PreOrder.scan_outcome visit_node st (PreOrder.each scan nodes st).
Proof.
  intros Hscan. induction nodes as [ | node nodes IH]; intros st Hpath.
  - cbn. apply incl_refl.
  - cbn [PreOrder.each]. specialize (Hscan node st Hpath).
    destruct (scan node st) as [st1 | e]; [ | exact Hscan].
    cbn [bind]. cbn in Hscan.
    assert (Hpath1 : incl path (snd st1)) by (eapply incl_tran; eassumption).
    specialize (IH st1 Hpath1).
    destruct (PreOrder.each scan nodes st1) as [st2 | e]; [ | exact IH].
    cbn in IH |- *. eapply incl_tran; eassumption.
Qed.

Lemma subscribers_unseen (tail publisher x : grnode.Atomic) (seen : list grnode.Atomic) :
  In x (PreOrder.subscribers output tail publisher seen) -> ~ In x seen.
Proof.
  unfold PreOrder.subscribers. rewrite In_of_list, in_map_iff.
  intros (s & <- & Hs). apply filter_In in Hs as [_ Hs].
  apply andb_true_iff in Hs as [Hs _]. apply negb_true_iff in Hs.
  now apply member_false.
Qed.

Lemma scan_outcome_holds (limit : nat) :
  forall (tail publisher : grnode.Atomic) (path : list grnode.Atomic)
         (st : State * list grnode.Atomic),
    incl path (snd st) ->
    PreOrder.scan_outcome visit_node st (PreOrder.scan output order visit_node limit tail publisher path st).
Proof.
  induction limit as [ | limit IH]; intros tail publisher path st Hpath.
  - cbn. now left.
  - cbn [PreOrder.scan].
    destruct (visit_node publisher (fst st)) as [visited | e] eqn:Hvisit.
    2:{ cbn. right. now exists publisher, (fst st). }
    cbn [bind].
    assert (Hseen : incl (snd st) (nodeset.add publisher (snd st))).
    { intros x Hx. apply In_add. now right. }
    destruct (PreOrder.subscribers output tail publisher (nodeset.add publisher (snd st)))
      as [ | s0 subs] eqn:Hsubs.
    { cbn. exact Hseen. }
    assert (Hpath' : incl (nodeset.add publisher path) (nodeset.add publisher (snd st))).
    { intros x Hx. apply In_add in Hx as [-> | Hx]; apply In_add; [now left | right].
      now apply Hpath. }
    replace (nodeset.isdisjoint (s0 :: subs) (nodeset.add publisher path)) with true.
    2:{ symmetry. apply forallb_forall. intros x Hx. apply negb_true_iff, member_false.
        intros Hin. rewrite <- Hsubs in Hx. apply subscribers_unseen in Hx.
        apply Hx, Hpath', Hin. }
    cbn [assert bind].
    pose proof (each_outcome (nodeset.add publisher path)
                  (fun node st => PreOrder.scan output order visit_node limit tail node
                                    (nodeset.add publisher path) st)
                  (order (s0 :: subs))
                  (fun node st' H => IH tail node (nodeset.add publisher path) st' H)
                  (visited, nodeset.add publisher (snd st)) Hpath') as Heach.
    destruct (PreOrder.each _ (order (s0 :: subs)) (visited, nodeset.add publisher (snd st)))
      as [st2 | e]; [ | exact Heach].
    cbn in Heach |- *. eapply incl_tran; eassumption.
Qed.

(** X26. The check 'Cyclic flow' of [PreOrder.visit_path] never fails: the
    subscribers it looks at are taken from outside the set [seen], which
    holds the path. A visit fails only with an exception of [visit_node]
    or at the recursion limit, on every graph, cyclic ones included. *)
Theorem visit_path_never_cyclic (limit : nat) (head tail : grnode.Atomic)
    (st : State) (e : exn) :
  PreOrder.visit_path output order visit_node limit head tail st = Raise e ->
  e = RecursionError \/ exists node s, visit_node node s = Raise e.
Proof.
  unfold PreOrder.visit_path. intros H.
  pose proof (scan_outcome_holds limit tail head [] (st, []) (incl_nil_l _)) as Hscan.
  destruct (PreOrder.scan output order visit_node limit tail head [] (st, []))
    as [st' | e']; [discriminate | ].
  cbn in H. injection H as ->. exact Hscan.
Qed.
End PreOrderProperties.

(** ** Paths and closures *)

Section PathProperties.
Variable output : grnode.Atomic -> list (list grnode.Subscription).
Variable szin : grnode.Atomic -> nat.
Variable szout : grnode.Atomic -> nat.
Variable order : list grnode.Atomic -> list grnode.Atomic.
Variable pop : list grnode.Atomic -> grnode.Atomic.
Hypothesis order_permutation : forall s, Permutation (order s) s.
Hypothesis pop_member : forall s, s <> [] -> In (pop s) s.

Lemma length_add_positive (x : grnode.Atomic) (s : list grnode.Atomic) :
  (1 <= length (nodeset.add x s))%nat.
Proof.
  unfold nodeset.add. destruct (nodeset.member x s) eqn:E.
  - destruct s; [discriminate | cbn; lia].
  - rewrite length_app. cbn. lia.
Qed.

(** What the loop of [tail] yields for the expected node [t], where it
    collected [c] for another expectation: [t] at once, or [c] again. *)
Lemma endings_anchor (F G : grnode.Atomic -> result grnode.Atomic)
    (x : option grnode.Atomic) (t : grnode.Atomic) (nodes : list grnode.Atomic) :
  forall c0 c,
    Path.endings F x nodes c0 = Ok (inr c) ->
    (forall n r, In n nodes -> F n = Ok r -> Path.is_expected x r = false ->
                 G n = Ok t \/ (r <> t /\ G n = Ok r)) ->
    Path.endings G (Some t) nodes c0 = Ok (inl t) \/
    (Path.endings G (Some t) nodes c0 = Ok (inr c) /\
     forall y, In y c -> In y c0 \/ y <> t).
Proof.
  induction nodes as [ | n nodes IH]; intros c0 c HF HG.
  - cbn in HF. injection HF as <-. right. split; [reflexivity | ]. intros y Hy. now left.
  - cbn [Path.endings] in HF |- *.
    destruct (F n) as [r1 | e] eqn:HFn; [ | discriminate]. cbn [bind] in HF.
    destruct (Path.is_expected x r1) eqn:Hx; [discriminate | ].
    destruct (HG n r1 (or_introl eq_refl) HFn Hx) as [HGn | [Hr1 HGn]]; rewrite HGn; cbn [bind].
    + left. cbn [Path.is_expected]. now rewrite Nat.eqb_refl.
    + cbn [Path.is_expected]. apply Nat.eqb_neq in Hr1 as Hr1'. rewrite Hr1'.
      destruct (IH (nodeset.add r1 c0) c HF) as [H | [H Hc]].
      * intros n' r' Hn'. apply HG. now right.
      * now left.
      * right. split; [exact H | ]. intros y Hy.
        destruct (Hc y Hy) as [Hin | Hne]; [ | now right].
        apply In_add in Hin as [-> | Hin]; [now right | now left].
Qed.

Lemma tail_anchor_inner (limit : nat) :
  forall (node : grnode.Atomic) (x : option grnode.Atomic) (path : list grnode.Atomic)
         (r t : grnode.Atomic),
    Path.tail output order pop limit node x path = Ok r ->
    Path.is_expected x r = false ->
    ((1 <? length (nodeset.add node path))%nat = true ->
     Path.tail output order pop limit node (Some t) path = Ok t \/
     (r <> t /\ Path.tail output order pop limit node (Some t) path = Ok r)) /\
    (r = t -> Path.tail output order pop limit node (Some t) path = Ok t).
Proof.
  induction limit as [ | limit IH]; intros node x path r t Hr Hx; [discriminate | ].
  rewrite tail_step in Hr. rewrite tail_step. cbv zeta in *.
  destruct (Path.is_expected x node) eqn:Hnode; rewrite ?Hnode in Hr.
  { injection Hr as <-. congruence. }
  destruct (Nat.eq_dec node t) as [-> | Hnt].
  { cbn [Path.is_expected]. rewrite Nat.eqb_refl. split; [now left | reflexivity]. }
  cbn [Path.is_expected]. apply Nat.eqb_neq in Hnt as Hnt'. rewrite Hnt'.
  destruct (Path.apply_subscribers output node) as [ | s0 subs] eqn:Hsubs.
  { injection Hr as <-. split; [now right | congruence]. }
  destruct (nodeset.isdisjoint (s0 :: subs) (nodeset.add node path)) eqn:Hdis;
    [ | discriminate].
  cbn [assert bind] in *.
  destruct (Path.endings (fun n => Path.tail output order pop limit n x (nodeset.add node path))
              x (order (s0 :: subs)) []) as [[r' | c] | e] eqn:Hend;
    rewrite ?Hend in Hr; try discriminate.
  { (* the expected node of [x] was returned at once *)
    cbn [bind] in Hr. injection Hr as <-.
    exfalso. clear - Hend Hx.
    assert (H : forall nodes c0,
              Path.endings (fun n => Path.tail output order pop limit n x (nodeset.add node path))
                x nodes c0 = Ok (inl r') -> Path.is_expected x r' = true).
    { induction nodes as [ | n nodes IHn]; intros c0 H; [discriminate | ].
      cbn [Path.endings] in H.
      destruct (Path.tail output order pop limit n x (nodeset.add node path)) as [r1 | ];
        [ | discriminate].
      cbn [bind] in H. destruct (Path.is_expected x r1) eqn:E.
      - now injection H as <-.
      - now apply IHn in H. }
    apply H in Hend. congruence. }
  cbn [bind] in Hr.
  destruct ((1 <? length (nodeset.add node path))%nat
            || match x with None => true | Some _ => false end && (length c =? 1)%nat)%bool
    eqn:Hassert; rewrite ?Hassert in Hr; [ | discriminate].
  cbn [assert bind] in Hr.
  destruct c as [ | c1 c]; [discriminate | ]. injection Hr as <-.
  destruct (endings_anchor
              (fun n => Path.tail output order pop limit n x (nodeset.add node path))
              (fun n => Path.tail output order pop limit n (Some t) (nodeset.add node path))
              x t (order (s0 :: subs)) [] (c1 :: c) Hend) as [Hfound | [Hsame Hall]].
  - intros n r Hn HFn Hxr.
    destruct (IH n x (nodeset.add node path) r t HFn Hxr) as [H1 _]. apply H1.
    assert (Hn' : nodeset.member n (nodeset.add node path) = false).
    { apply (Permutation_in _ (order_permutation (s0 :: subs))) in Hn.
      unfold nodeset.isdisjoint in Hdis. rewrite forallb_forall in Hdis.
      apply negb_true_iff. now apply Hdis. }
    rewrite (length_add_new n _ Hn'). apply Nat.ltb_lt.
    pose proof (length_add_positive node path). lia.
  - rewrite Hfound. cbn [bind]. split; [now left | reflexivity].
  - rewrite Hsame. cbn [bind].
    assert (Hpop : pop (c1 :: c) <> t).
    { destruct (Hall (pop (c1 :: c))) as [[] | H]; [ | exact H].
      apply pop_member. discriminate. }
    split; [ | congruence].
    intros Hlen. rewrite Hlen. cbn [orb assert bind]. right. split; [exact Hpop | reflexivity].
Qed.

(** A path can be anchored at the tail found for it. *)
Lemma tail_anchor (limit : nat) (head : grnode.Atomic) (x : option grnode.Atomic)
    (t : grnode.Atomic) :
  Path.tail output order pop limit head x [] = Ok t ->
  Path.tail output order pop limit head (Some t) [] = Ok t.
Proof.
  intros H. destruct (Path.is_expected x t) eqn:Hx.
  - destruct x as [e | ]; [ | discriminate]. cbn in Hx. apply Nat.eqb_eq in Hx. now subst.
  - now apply (tail_anchor_inner limit head x [] t t H Hx).
Qed.

(** X27. A path is constructed only with a head of at most one apply input
    and a tail of at most one apply output; its tail is the one
    [Path.tail] finds from the head, and it is a [Closure] exactly when
    an output subscription of the tail is to a [Train] or [Label] port, a
    [Channel] otherwise. The publisher of a closure passes on such
    subscriptions only, and fails on one to an apply port. *)
Theorem path_classification (limit : nat) (head : grnode.Atomic)
    (tail_ : option grnode.Atomic) (p : Path.t) :
  Path.new output szin szout order pop limit head tail_ = Ok p ->
  (szin head <= 1)%nat /\ (szout (Path._tail p) <= 1)%nat /\
  Path._head p = head /\
  Path.tail output order pop limit head tail_ [] = Ok (Path._tail p) /\
  (Path.cls p = Path.Closure <->
   exists s, In s (Path.subscriptions output (Path._tail p)) /\
             port.is_train_or_label (grnode.port s) = true) /\
  (forall (Published : Type) (publisher : grnode.Subscription -> result Published)
          (subscription : grnode.Subscription),
     Path.republish publisher subscription
     = if port.is_train_or_label (grnode.port subscription) then publisher subscription
       else Raise (AssertionError "Closure path publishing")).
Proof.
  unfold Path.new. intros H.
  destruct ((szin head =? 0)%nat || (szin head =? 1)%nat)%bool eqn:Hin; [ | discriminate].
  cbn [assert bind] in H.
  destruct (Path.tail output order pop limit head tail_ []) as [t | e]; [ | discriminate].
  cbn [bind] in H.
  destruct ((szout t =? 0)%nat || (szout t =? 1)%nat)%bool eqn:Hout; [ | discriminate].
  cbn [assert bind] in H. injection H as <-. cbn [Path._tail Path._head Path.cls].
  apply orb_true_iff in Hin, Hout. rewrite !Nat.eqb_eq in Hin, Hout.
  repeat split; try lia.
  - intros Hcls.
    destruct (existsb _ (Path.subscriptions output t)) eqn:Hex; [ | discriminate].
    now apply existsb_exists in Hex.
  - intros Hex. apply existsb_exists in Hex. now rewrite Hex.
  - intros Published publisher subscription. unfold Path.republish.
    now destruct (port.is_train_or_label (grnode.port subscription)).
Qed.

(** X28. A closure is not extendable: [extend] with a path to the right, or
    with a tail other than its own, fails with 'Connecting closure path';
    [extend()] and [extend(None, tail)] with its own tail construct the
    path again from its head, anchored at its tail, which gives a path
    equal to the closure. *)
Theorem closure_extend (limit : nat) (head : grnode.Atomic)
    (tail_ : option grnode.Atomic) (p : Path.t) :
  Path.new output szin szout order pop limit head tail_ = Ok p ->
  Path.cls p = Path.Closure ->
  Path.Closure_extend output szin szout order pop limit p None None = Ok p /\
  Path.Closure_extend output szin szout order pop limit p None (Some (Path._tail p))
  = Ok p /\
  (forall right other,
     Path.Closure_extend output szin szout order pop limit p (Some right) other
     = Raise (AssertionError "Connecting closure path")) /\
  (forall other,
     other <> Path._tail p ->
     Path.Closure_extend output szin szout order pop limit p None (Some other)
     = Raise (AssertionError "Connecting closure path")).
Proof.
  intros Hnew _.
  assert (Hagain : Path.new output szin szout order pop limit (Path._head p)
                     (Some (Path._tail p)) = Ok p).
  { unfold Path.new in *.
    destruct ((szin head =? 0)%nat || (szin head =? 1)%nat)%bool eqn:Hin; [ | discriminate].
    cbn [assert bind] in Hnew.
    destruct (Path.tail output order pop limit head tail_ []) as [t | e] eqn:Ht;
      [ | discriminate].
    cbn [bind] in Hnew.
    destruct ((szout t =? 0)%nat || (szout t =? 1)%nat)%bool eqn:Hout; [ | discriminate].
    cbn [assert bind] in Hnew. injection Hnew as <-. cbn [Path._tail Path._head].
    rewrite Hin. cbn [assert bind]. rewrite (tail_anchor limit head tail_ t Ht).
    cbn [bind]. rewrite Hout. reflexivity. }
  unfold Path.Closure_extend. rewrite Nat.eqb_refl. repeat split; try exact Hagain.
  intros other Hother. apply Nat.eqb_neq in Hother. now rewrite Hother.
Qed.
End PathProperties.

(** ** The scenario graphs *)

Lemma Scenario_order_permutation (s : list grnode.Atomic) :
  Permutation (Scenario.order s) s.
Proof. apply Permutation_refl. Qed.

Lemma Scenario_pop_member (s : list grnode.Atomic) : s <> [] -> In (Scenario.pop s) s.
Proof. destruct s; [congruence | now left]. Qed.

Lemma tail_of_chain_witness :
  Path.tail Scenario.chain Scenario.order Scenario.pop 3 0%nat None [] = Ok 2%nat.
Proof.
  apply (tail_of_chain Scenario.chain Scenario.order Scenario.pop
           Scenario_order_permutation Scenario_pop_member 3 0%nat [1; 2]%nat None).
  - cbn. auto.
  - repeat constructor; cbn; lia.
  - cbn. lia.
  - exact I.
Defined.

Lemma tail_expected_unreached_witness :
  Path.tail Scenario.chain Scenario.order Scenario.pop 3 0%nat (Some 3%nat) []
  = Raise (AssertionError "Ambiguous tail").
Proof.
  apply (tail_expected_unreached Scenario.chain Scenario.order Scenario.pop
           Scenario_order_permutation Scenario_pop_member 3 0%nat [1; 2]%nat 3%nat).
  - cbn. auto.
  - repeat constructor; cbn; lia.
  - cbn. lia.
  - cbn. lia.
Defined.

Lemma tail_fork_ambiguous_witness :
  Path.tail Scenario.fork Scenario.order Scenario.pop 2 0%nat None []
  = Raise (AssertionError "Ambiguous tail").
Proof.
  apply (tail_fork_ambiguous Scenario.fork Scenario.order Scenario.pop
           Scenario_order_permutation 0 0%nat None).
  - cbn. lia.
  - cbn. intros s [<- | [<- | []]]; split; (reflexivity || lia).
  - exact I.
Defined.

Lemma tail_deep_fork_unchecked_witness :
  exists found,
    Path.tail Scenario.deep_fork Scenario.order Scenario.pop 3 0%nat None [] = Ok found /\
    In found (Path.apply_subscribers Scenario.deep_fork 1%nat).
Proof.
  apply (tail_deep_fork_unchecked Scenario.deep_fork Scenario.order Scenario.pop
           Scenario_order_permutation Scenario_pop_member 0 0%nat 1%nat).
  - reflexivity.
  - lia.
  - cbn. discriminate.
  - cbn. intros s [<- | [<- | []]]; repeat split; (reflexivity || lia).
Defined.

Lemma visit_path_never_cyclic_witness :
  ValueError "node 2" = RecursionError \/
  exists node s, Scenario.failing node s = Raise (ValueError "node 2").
Proof.
  apply (visit_path_never_cyclic Scenario.cycle Scenario.order Scenario.failing
           5 0%nat 2%nat []).
  reflexivity.
Defined.

Lemma path_classification_witness :
  (Scenario.simple 0 <= 1)%nat /\
  (Scenario.simple (Path._tail (Path.mk Path.Closure 0 2)) <= 1)%nat /\
  Path._head (Path.mk Path.Closure 0 2) = 0%nat /\
  Path.tail Scenario.chain Scenario.order Scenario.pop 3 0%nat None []
  = Ok (Path._tail (Path.mk Path.Closure 0 2)) /\
  (Path.cls (Path.mk Path.Closure 0 2) = Path.Closure <->
   exists s, In s (Path.subscriptions Scenario.chain (Path._tail (Path.mk Path.Closure 0 2))) /\
             port.is_train_or_label (grnode.port s) = true) /\
  (forall (Published : Type) (publisher : grnode.Subscription -> result Published)
          (subscription : grnode.Subscription),
     Path.republish publisher subscription
     = if port.is_train_or_label (grnode.port subscription) then publisher subscription
       else Raise (AssertionError "Closure path publishing")).
Proof.
  apply (path_classification Scenario.chain Scenario.simple Scenario.simple
           Scenario.order Scenario.pop 3 0%nat None (Path.mk Path.Closure 0 2)).
  reflexivity.
Defined.

Lemma closure_extend_witness :
  Path.Closure_extend Scenario.chain Scenario.simple Scenario.simple Scenario.order
    Scenario.pop 3 (Path.mk Path.Closure 0 2) None None
  = Ok (Path.mk Path.Closure 0 2) /\
  Path.Closure_extend Scenario.chain Scenario.simple Scenario.simple Scenario.order
    Scenario.pop 3 (Path.mk Path.Closure 0 2) None
    (Some (Path._tail (Path.mk Path.Closure 0 2)))
  = Ok (Path.mk Path.Closure 0 2) /\
  (forall right other,
     Path.Closure_extend Scenario.chain Scenario.simple Scenario.simple Scenario.order
       Scenario.pop 3 (Path.mk Path.Closure 0 2) (Some right) other
     = Raise (AssertionError "Connecting closure path")) /\
  (forall other,
     other <> Path._tail (Path.mk Path.Closure 0 2) ->
     Path.Closure_extend Scenario.chain Scenario.simple Scenario.simple Scenario.order
       Scenario.pop 3 (Path.mk Path.Closure 0 2) None (Some other)
     = Raise (AssertionError "Connecting closure path")).
Proof.
  apply (closure_extend Scenario.chain Scenario.simple Scenario.simple Scenario.order
           Scenario.pop Scenario_order_permutation Scenario_pop_member 3 0%nat None
           (Path.mk Path.Closure 0 2)); reflexivity.
Defined.

(** ** Retracing a channel, and the visit at the tail *)

Lemma is_chain_suffix (apply_subscribers : grnode.Atomic -> list grnode.Atomic)
    (pre : list grnode.Atomic) (node : grnode.Atomic) (post : list grnode.Atomic) :
  Shape.is_chain apply_subscribers (pre ++ node :: post) ->
  Shape.is_chain apply_subscribers (node :: post).
Proof.
  induction pre as [ | p pre IH]; intros H; [exact H | ].
  apply IH. cbn [app] in H. cbn [Shape.is_chain] in H.
  destruct (pre ++ node :: post)%list as [ | x l] eqn:E.
  - now destruct pre.
  - exact (proj2 H).
Qed.

Lemma last_suffix (pre : list grnode.Atomic) (node d : grnode.Atomic)
    (post : list grnode.Atomic) :
  List.last (pre ++ node :: post) d = List.last post node.
Proof.
  induction pre as [ | p pre IH].
  - apply last_cons.
  - cbn [app]. rewrite last_cons. destruct pre as [ | q pre].
    + cbn [app]. apply last_cons.
    + cbn [app] in *. rewrite last_cons in IH. rewrite last_cons. exact IH.
Qed.

Lemma filter_none {A : Type} (f : A -> bool) (l : list A) :
  (forall x, In x l -> f x = false) -> List.filter f l = [].
Proof.
  induction l as [ | x l IH]; intros H; [reflexivity | ].
  cbn [List.filter]. rewrite (H x (or_introl eq_refl)). apply IH.
  intros y Hy. apply H. now right.
Qed.

Section RetraceProperties.
Variable output : grnode.Atomic -> list (list grnode.Subscription).
Variable szin : grnode.Atomic -> nat.
Variable szout : grnode.Atomic -> nat.
Variable order : list grnode.Atomic -> list grnode.Atomic.
Variable pop : list grnode.Atomic -> grnode.Atomic.
Hypothesis order_permutation : forall s, Permutation (order s) s.
Hypothesis pop_member : forall s, s <> [] -> In (pop s) s.

(** X29. Extending a channel with nothing retraces it to the physical tail:
    on a chain of nodes, [extend()] of a channel from the head to any node
    of the chain gives what [Path(head)] constructs, the path from the
    head to the last node of the chain. *)
Theorem channel_retrace (limit : nat) (head : grnode.Atomic) (chain : list grnode.Atomic)
    (self : Path.t) :
  Shape.is_chain (Path.apply_subscribers output) (head :: chain) ->
  List.NoDup (head :: chain) ->
  (length chain < limit)%nat ->
  Path.cls self = Path.Channel ->
  Path._head self = head ->
  In (Path._tail self) (head :: chain) ->
  Path.Channel_extend output szin szout order pop limit self None
  = Path.new output szin szout order pop limit head None /\
  Path.tail output order pop limit head None [] = Ok (List.last chain head).
Proof.
  intros Hchain Hnodup Hlimit _ Hhead Htail.
  assert (Hlast : Path.tail output order pop limit head None [] = Ok (List.last chain head)).
  { now apply (tail_chain_last output order pop order_permutation pop_member limit head
                 chain). }
  split; [ | exact Hlast].
  destruct (in_split _ _ Htail) as (pre & post & E).
  assert (Hsub : Path.tail output order pop limit (Path._tail self) None []
                 = Ok (List.last chain head)).
  { rewrite <- (last_cons head head chain), E, last_suffix.
    apply (tail_chain_last output order pop order_permutation pop_member limit
             (Path._tail self) post).
    - apply (is_chain_suffix _ pre). now rewrite <- E.
    - rewrite E in Hnodup. now apply NoDup_app_remove_l in Hnodup.
    - apply (f_equal (@length _)) in E. rewrite length_app in E. cbn in E. lia. }
  unfold Path.Channel_extend. rewrite Hsub. cbn [bind]. rewrite Hhead.
  unfold Path.new. rewrite Hlast.
  rewrite (tail_anchor output order pop order_permutation pop_member limit head None
             (List.last chain head) Hlast).
  reflexivity.
Qed.
End RetraceProperties.

Section TailVisitProperties.
Variable output : grnode.Atomic -> list (list grnode.Subscription).
Variable order : list grnode.Atomic -> list grnode.Atomic.
Hypothesis order_permutation : forall s, Permutation (order s) s.
Context {State : Type}.
Variable visit_node : grnode.Atomic -> State -> result State.

(** One step of [scan]. *)
Lemma scan_step (limit : nat) (tail publisher : grnode.Atomic)
    (path : list grnode.Atomic) (st : State * list grnode.Atomic) :
  PreOrder.scan output order visit_node (S limit) tail publisher path st
  = let* visited := visit_node publisher (fst st) in
    let seen := nodeset.add publisher (snd st) in
    match PreOrder.subscribers output tail publisher seen with
    | [] => Ok (visited, seen)
    | _ :: _ =>
        let path := nodeset.add publisher path in
        let* _ := assert (nodeset.isdisjoint
                            (PreOrder.subscribers output tail publisher seen) path)
                         "Cyclic flow" in
        PreOrder.each
          (fun node st => PreOrder.scan output order visit_node limit tail node path st)
          (order (PreOrder.subscribers output tail publisher seen)) (visited, seen)
    end.
Proof. reflexivity. Qed.

(** X30. At the tail a pre-order visit goes on through the train and
    label subscriptions only: when all output subscriptions of the tail
    are to apply ports, the visit of a path that is its tail alone is the
    visit of that node; a node subscribed to the tail through a train or
    label port is visited after it. *)
Theorem visit_path_at_tail (limit : nat) (node : grnode.Atomic) (st : State) :
  ((forall s, In s (Path.subscriptions output node) ->
              port.is_apply (grnode.port s) = true) ->
   PreOrder.visit_path output order visit_node (S limit) node node st
   = visit_node node st) /\
  (forall (sink : grnode.Atomic) (p : port.Type_),
     Path.subscriptions output node = [grnode.mkSubscription sink p] ->
     port.is_train_or_label p = true ->
     sink <> node ->
     Path.subscriptions output sink = [] ->
     PreOrder.visit_path output order visit_node (S (S limit)) node node st
     = let* st := visit_node node st in visit_node sink st).
Proof.
  split.
  - intros Happly. unfold PreOrder.visit_path. cbn [PreOrder.scan fst snd].
    destruct (visit_node node st) as [visited | e]; [ | reflexivity].
    cbn [bind]. unfold PreOrder.subscribers.
    rewrite filter_none; [reflexivity | ].
    intros s Hs. rewrite Nat.eqb_refl, (Happly s Hs). cbn [negb orb].
    apply andb_false_r.
  - intros sink p Hsubs Hport Hsink Hleaf. unfold PreOrder.visit_path.
    rewrite scan_step. cbn [fst snd].
    destruct (visit_node node st) as [visited | e]; [ | reflexivity].
    cbn [bind]. cbv zeta.
    assert (Hsinks : PreOrder.subscribers output node node (nodeset.add node []) = [sink]).
    { unfold PreOrder.subscribers. rewrite Hsubs.
      cbn [List.filter grnode.node grnode.port nodeset.add nodeset.member existsb app].
      apply Nat.eqb_neq in Hsink as Hsink'. rewrite Hsink', Nat.eqb_refl.
      replace (port.is_apply p) with false by (now destruct p). reflexivity. }
    rewrite Hsinks.
    replace (nodeset.isdisjoint [sink] (nodeset.add node (@nil grnode.Atomic))) with true.
    2:{ cbn. apply Nat.eqb_neq in Hsink as Hsink'. now rewrite Hsink'. }
    cbn [assert bind].
    replace (order [sink]) with [sink]
      by (symmetry; apply Permutation_singleton_r, order_permutation).
    cbn [PreOrder.each]. rewrite scan_step. cbn [fst snd].
    destruct (visit_node sink visited) as [visited' | e]; [ | reflexivity].
    cbn [bind]. cbv zeta.
    replace (PreOrder.subscribers output node sink (nodeset.add sink (nodeset.add node [])))
      with (@nil grnode.Atomic).
    + reflexivity.
    + unfold PreOrder.subscribers. now rewrite Hleaf.
Qed.
End TailVisitProperties.

Lemma channel_retrace_witness :
  Path.Channel_extend Scenario.chain Scenario.simple Scenario.simple Scenario.order
    Scenario.pop 3 (Path.mk Path.Channel 0 1) None
  = Path.new Scenario.chain Scenario.simple Scenario.simple Scenario.order Scenario.pop
      3 0%nat None /\
  Path.tail Scenario.chain Scenario.order Scenario.pop 3 0%nat None [] = Ok 2%nat.
Proof.
  apply (channel_retrace Scenario.chain Scenario.simple Scenario.simple Scenario.order
           Scenario.pop Scenario_order_permutation Scenario_pop_member 3 0%nat
           [1; 2]%nat (Path.mk Path.Channel 0 1)).
  - cbn. auto.
  - repeat constructor; cbn; lia.
  - cbn. lia.
  - reflexivity.
  - reflexivity.
  - cbn. auto.
Defined.

Lemma visit_path_at_tail_witness :
  PreOrder.visit_path Scenario.chain Scenario.order Scenario.noting 1 1%nat 1%nat []
  = Ok [1%nat] /\
  PreOrder.visit_path Scenario.chain Scenario.order Scenario.noting 2 2%nat 2%nat []
  = Ok [2%nat; 3%nat].
Proof.
  split.
  - apply (proj1 (visit_path_at_tail Scenario.chain Scenario.order
                    Scenario_order_permutation Scenario.noting 0 1%nat [])).
    intros s [<- | []]. reflexivity.
  - apply (proj2 (visit_path_at_tail Scenario.chain Scenario.order
                    Scenario_order_permutation Scenario.noting 0 2%nat [])
                 3%nat port.Train).
    + reflexivity.
    + reflexivity.
    + discriminate.
    + reflexivity.
Defined.

(** * The scenario query, the forms of literals, and closures *)

(** ** The statement of the scenario query *)

Lemma generate_conjunction (x y : string) :
  Parser.generate_expression Parser.And [Parser.Fragment x; Parser.Fragment y]
  = Ok (Parser.clean x ++ " AND " ++ Parser.clean y).
Proof.
  unfold Parser.generate_expression. cbn [Parser.EXPRESSION]. rewrite call_two.
  generalize (Parser.clean x) (Parser.clean y). intros cx cy.
  cbn. now rewrite append_empty_r.
Qed.

(** The visitor of the bundle, which pops the fragments of the operands
    and pushes the fragment of the expression, gives the statement of the
    emitters applied innermost first. *)
Lemma bundle_statement_emitted : S4.statement = S4.emitted.
Proof. vm_compute. reflexivity. Qed.

(** C1. The query of the scenario, [a + b * 2] selected from [T] where
    [(a > 1) & (b < 3)], renders with the product in parentheses, as
    [SELECT a + (b * 2)], and with each comparison in parentheses under
    [AND]: an operand is put in parentheses unless [ASSOCIATIVE] matches the
    whole of it, which it does for a name and for a number and does not
    for a product or a comparison of these. *)
Theorem S4_statement_parenthesised :
  S4.emitted = Ok S4.parenthesised /\
  (forall arg : string,
     Parser.clean arg
     = if re.fullmatch Parser.ASSOCIATIVE arg then arg else "(" ++ arg ++ ")") /\
  (forall x y : string,
     Parser.generate_expression Parser.Addition [Parser.Fragment x; Parser.Fragment y]
     = Ok (Parser.clean x ++ " + " ++ Parser.clean y)) /\
  (forall x y : string,
     Parser.generate_expression Parser.Multiplication
       [Parser.Fragment x; Parser.Fragment y]
     = Ok (Parser.clean x ++ " * " ++ Parser.clean y)) /\
  (forall x y : string,
     Parser.generate_expression Parser.And [Parser.Fragment x; Parser.Fragment y]
     = Ok (Parser.clean x ++ " AND " ++ Parser.clean y)) /\
  Parser.clean "a" = "a" /\
  Parser.clean "2" = "2" /\
  Parser.clean "b * 2" = "(b * 2)" /\
  Parser.clean "a > 1" = "(a > 1)" /\
  Parser.clean "b < 3" = "(b < 3)".
Proof.
  split; [vm_compute; reflexivity | ].
  split; [intros arg; unfold Parser.clean;
          now destruct (re.fullmatch Parser.ASSOCIATIVE arg) | ].
  split; [apply generate_addition | ].
  split; [apply generate_multiplication | ].
  split; [apply generate_conjunction | ].
  repeat split; vm_compute; reflexivity.
Qed.

(** C1, as it is stated, fails: the statement rendered is not the one
    without parentheses around the product. *)
Lemma S4_statement_not_bare :
  S4.emitted = Ok S4.parenthesised /\
  String.eqb S4.parenthesised S4.bare = false /\
  Parser.generate_expression Parser.Addition
    [Parser.Fragment "a"; Parser.Fragment "b * 2"]
  = Ok "a + (b * 2)".
Proof. repeat split; vm_compute; reflexivity. Qed.

(** ** The forms of literals *)



(** ** The tail below the first level *)

Lemma order_pair (order : list grnode.Atomic -> list grnode.Atomic)
    (x y : grnode.Atomic) :
  (forall s, Permutation (order s) s) ->
  order [x; y] = [x; y] \/ order [x; y] = [y; x].
Proof.
  intros H. specialize (H [x; y]).
  apply Permutation_sym, Permutation_length_2_inv in H. tauto.
Qed.

(** C3. [Path.tail(head)] does not fail on every graph with more than one
    terminal node: where the head [0] has the single apply subscriber [1],
    and [1] has the two leaves [2] and [3] for apply subscribers, it
    returns one of the leaves, whatever order sets are iterated in, while
    for the head whose own two apply outputs are subscribed by leaves it
    fails with 'Ambiguous tail'. *)
Theorem tail_ambiguity_below_head
    (order : list grnode.Atomic -> list grnode.Atomic)
    (pop : list grnode.Atomic -> grnode.Atomic) (limit : nat) :
  (forall s, Permutation (order s) s) ->
  (forall s, s <> [] -> In (pop s) s) ->
  Path.apply_subscribers Scenario.deep_fork 0%nat = [1%nat] /\
  Path.apply_subscribers Scenario.deep_fork 1%nat = [2%nat; 3%nat] /\
  Path.apply_subscribers Scenario.deep_fork 2%nat = [] /\
  Path.apply_subscribers Scenario.deep_fork 3%nat = [] /\
  (Path.tail Scenario.deep_fork order pop (3 + limit) 0%nat None [] = Ok 2%nat \/
   Path.tail Scenario.deep_fork order pop (3 + limit) 0%nat None [] = Ok 3%nat) /\
  Path.tail Scenario.fork order pop (3 + limit) 0%nat None []
  = Raise (AssertionError "Ambiguous tail").
Proof.
  intros Horder Hpop.
  assert (E0 : Path.apply_subscribers Scenario.deep_fork 0%nat = [1%nat]) by reflexivity.
  assert (E1 : Path.apply_subscribers Scenario.deep_fork 1%nat = [2%nat; 3%nat])
    by reflexivity.
  assert (F0 : Path.apply_subscribers Scenario.fork 0%nat = [1%nat; 2%nat])
    by reflexivity.
  repeat (split; [reflexivity | ]).
  pose proof (order_single order Horder) as H1.
  split.
  - cbn [Nat.add]. rewrite !tail_step, E0.
    cbn [Path.is_expected]. cbv zeta.
    cbn [nodeset.add nodeset.member existsb nodeset.isdisjoint forallb Nat.eqb negb
         orb andb assert bind app].
    rewrite H1. cbn [Path.endings].
    rewrite tail_step, E1.
    cbn [Path.is_expected]. cbv zeta.
    cbn [nodeset.add nodeset.member existsb nodeset.isdisjoint forallb Nat.eqb negb
         orb andb assert bind app].
    destruct (order_pair order 2%nat 3%nat Horder) as [E | E];
      unfold grnode.Atomic in *; rewrite E;
      cbn [Path.endings]; rewrite !tail_step; cbn;
      rewrite (pop_single pop Hpop).
    + destruct (Hpop [2%nat; 3%nat] ltac:(discriminate)) as [P | [P | []]];
        [left | right]; f_equal; symmetry; exact P.
    + destruct (Hpop [3%nat; 2%nat] ltac:(discriminate)) as [P | [P | []]];
        [right | left]; f_equal; symmetry; exact P.
  - cbn [Nat.add]. rewrite tail_step, F0.
    cbn [Path.is_expected]. cbv zeta.
    cbn [nodeset.add nodeset.member existsb nodeset.isdisjoint forallb Nat.eqb negb
         orb andb assert bind app].
    destruct (order_pair order 1%nat 2%nat Horder) as [E | E];
      unfold grnode.Atomic in *; rewrite E;
      cbn [Path.endings]; rewrite !tail_step; reflexivity.
Qed.

Lemma tail_ambiguity_below_head_witness :
  Path.apply_subscribers Scenario.deep_fork 0%nat = [1%nat] /\
  Path.apply_subscribers Scenario.deep_fork 1%nat = [2%nat; 3%nat] /\
  Path.apply_subscribers Scenario.deep_fork 2%nat = [] /\
  Path.apply_subscribers Scenario.deep_fork 3%nat = [] /\
  (Path.tail Scenario.deep_fork Scenario.order Scenario.pop 3 0%nat None [] = Ok 2%nat \/
   Path.tail Scenario.deep_fork Scenario.order Scenario.pop 3 0%nat None [] = Ok 3%nat) /\
  Path.tail Scenario.fork Scenario.order Scenario.pop 3 0%nat None []
  = Raise (AssertionError "Ambiguous tail").
Proof.
  apply (tail_ambiguity_below_head Scenario.order Scenario.pop 0
           Scenario_order_permutation Scenario_pop_member).
Defined.

(** ** Closures *)

(** C4. Every path that [Path(head, tail)] constructs is a [Closure] if and
    only if an output subscription of its tail is to a [Train] or [Label]
    port, and a [Channel] if and only if there is none; the publisher of a
    closure fails with the assertion 'Closure path publishing' on every
    subscription whose port is neither [Train] nor [Label], and passes the
    others to the publisher it wraps. *)
Theorem closure_iff_sink_subscription
    (output : grnode.Atomic -> list (list grnode.Subscription))
    (szin szout : grnode.Atomic -> nat)
    (order : list grnode.Atomic -> list grnode.Atomic)
    (pop : list grnode.Atomic -> grnode.Atomic)
    (limit : nat) (head : grnode.Atomic) (tail_ : option grnode.Atomic) (p : Path.t) :
  Path.new output szin szout order pop limit head tail_ = Ok p ->
  (Path.cls p = Path.Closure <->
   exists s, In s (Path.subscriptions output (Path._tail p)) /\
             port.is_train_or_label (grnode.port s) = true) /\
  (Path.cls p = Path.Channel <->
   forall s, In s (Path.subscriptions output (Path._tail p)) ->
             port.is_train_or_label (grnode.port s) = false) /\
  (forall (Published : Type) (publisher : grnode.Subscription -> result Published)
          (subscription : grnode.Subscription),
     port.is_train_or_label (grnode.port subscription) = false ->
     Path.republish publisher subscription
     = Raise (AssertionError "Closure path publishing")) /\
  (forall (Published : Type) (publisher : grnode.Subscription -> result Published)
          (subscription : grnode.Subscription),
     port.is_train_or_label (grnode.port subscription) = true ->
     Path.republish publisher subscription = publisher subscription).
Proof.
  unfold Path.new. intros H.
  destruct ((szin head =? 0)%nat || (szin head =? 1)%nat)%bool; [ | discriminate].
  cbn [assert bind] in H.
  destruct (Path.tail output order pop limit head tail_ []) as [t | e]; [ | discriminate].
  cbn [bind] in H.
  destruct ((szout t =? 0)%nat || (szout t =? 1)%nat)%bool; [ | discriminate].
  cbn [assert bind] in H. injection H as <-. cbn [Path._tail Path.cls].
  destruct (existsb (fun s => port.is_train_or_label (grnode.port s))
                    (Path.subscriptions output t)) eqn:Hex.
  - apply existsb_exists in Hex. destruct Hex as (s & Hin & Hs).
    split; [split; [intros _; now exists s | reflexivity] | ].
    split; [split; [discriminate | intros Hall; rewrite (Hall s Hin) in Hs; discriminate] | ].
    split; intros Published publisher subscription Hport; unfold Path.republish;
      now rewrite Hport.
  - split; [split; [discriminate | ] | ].
    { intros (s & Hin & Hs).
      assert (Ht : existsb (fun s => port.is_train_or_label (grnode.port s))
                           (Path.subscriptions output t) = true)
        by (apply existsb_exists; now exists s).
      congruence. }
    split; [split; [ | reflexivity] | ].
    { intros _ s Hin.
      destruct (port.is_train_or_label (grnode.port s)) eqn:Hs; [ | reflexivity].
      assert (Ht : existsb (fun s => port.is_train_or_label (grnode.port s))
                           (Path.subscriptions output t) = true)
        by (apply existsb_exists; now exists s).
      congruence. }
    split; intros Published publisher subscription Hport; unfold Path.republish;
      now rewrite Hport.
Qed.

Lemma closure_iff_sink_subscription_witness :
  (Path.cls (Path.mk Path.Closure 0 2) = Path.Closure <->
   exists s, In s (Path.subscriptions Scenario.chain (Path._tail (Path.mk Path.Closure 0 2))) /\
             port.is_train_or_label (grnode.port s) = true) /\
  (Path.cls (Path.mk Path.Closure 0 2) = Path.Channel <->
   forall s, In s (Path.subscriptions Scenario.chain (Path._tail (Path.mk Path.Closure 0 2))) ->
             port.is_train_or_label (grnode.port s) = false) /\
  (forall (Published : Type) (publisher : grnode.Subscription -> result Published)
          (subscription : grnode.Subscription),
     port.is_train_or_label (grnode.port subscription) = false ->
     Path.republish publisher subscription
     = Raise (AssertionError "Closure path publishing")) /\
  (forall (Published : Type) (publisher : grnode.Subscription -> result Published)
          (subscription : grnode.Subscription),
     port.is_train_or_label (grnode.port subscription) = true ->
     Path.republish publisher subscription = publisher subscription).
Proof.
  apply (closure_iff_sink_subscription Scenario.chain Scenario.simple Scenario.simple
           Scenario.order Scenario.pop 3 0%nat None (Path.mk Path.Closure 0 2)).
  reflexivity.
Defined.

(** C5. A closure is not extendable: for every closure that [Path]
    constructs, [extend] with any path to the right fails with 'Connecting
    closure path', whatever tail is given, while [extend()] and
    [extend(None, tail)] with the tail of the closure succeed and return a
    path equal to the closure. *)
Theorem closure_not_extendable
    (output : grnode.Atomic -> list (list grnode.Subscription))
    (szin szout : grnode.Atomic -> nat)
    (order : list grnode.Atomic -> list grnode.Atomic)
    (pop : list grnode.Atomic -> grnode.Atomic)
    (limit : nat) (head : grnode.Atomic) (tail_ : option grnode.Atomic) (p : Path.t) :
  (forall s, Permutation (order s) s) ->
  (forall s, s <> [] -> In (pop s) s) ->
  Path.new output szin szout order pop limit head tail_ = Ok p ->
  Path.cls p = Path.Closure ->
  (forall (right : Path.t) (other : option grnode.Atomic),
     Path.Closure_extend output szin szout order pop limit p (Some right) other
     = Raise (AssertionError "Connecting closure path")) /\
  Path.Closure_extend output szin szout order pop limit p None None = Ok p /\
  Path.Closure_extend output szin szout order pop limit p None (Some (Path._tail p))
  = Ok p.
Proof.
  intros Horder Hpop Hnew _.
  assert (Hagain : Path.new output szin szout order pop limit (Path._head p)
                     (Some (Path._tail p)) = Ok p).
  { unfold Path.new in *.
    destruct ((szin head =? 0)%nat || (szin head =? 1)%nat)%bool eqn:Hin; [ | discriminate].
    cbn [assert bind] in Hnew.
    destruct (Path.tail output order pop limit head tail_ []) as [t | e] eqn:Ht;
      [ | discriminate].
    cbn [bind] in Hnew.
    destruct ((szout t =? 0)%nat || (szout t =? 1)%nat)%bool eqn:Hout; [ | discriminate].
    cbn [assert bind] in Hnew. injection Hnew as <-. cbn [Path._tail Path._head].
    rewrite Hin. cbn [assert bind].
    rewrite (tail_anchor output order pop Horder Hpop limit head tail_ t Ht).
    cbn [bind]. rewrite Hout. reflexivity. }
  unfold Path.Closure_extend. rewrite Nat.eqb_refl. repeat split; exact Hagain.
Qed.

Lemma closure_not_extendable_witness :
  (forall (right : Path.t) (other : option grnode.Atomic),
     Path.Closure_extend Scenario.chain Scenario.simple Scenario.simple Scenario.order
       Scenario.pop 3 (Path.mk Path.Closure 0 2) (Some right) other
     = Raise (AssertionError "Connecting closure path")) /\
  Path.Closure_extend Scenario.chain Scenario.simple Scenario.simple Scenario.order
    Scenario.pop 3 (Path.mk Path.Closure 0 2) None None
  = Ok (Path.mk Path.Closure 0 2) /\
  Path.Closure_extend Scenario.chain Scenario.simple Scenario.simple Scenario.order
    Scenario.pop 3 (Path.mk Path.Closure 0 2) None
    (Some (Path._tail (Path.mk Path.Closure 0 2)))
  = Ok (Path.mk Path.Closure 0 2).
Proof.
  apply (closure_not_extendable Scenario.chain Scenario.simple Scenario.simple
           Scenario.order Scenario.pop 3 0%nat None (Path.mk Path.Closure 0 2)
           Scenario_order_permutation Scenario_pop_member); reflexivity.
Defined.
